(** * busSerial: the bus-servo command interpreter of [busSweial.py]

    A shallow embedding of [BusServoController] (frame codec, segment
    parser, passthrough validation and the line dispatcher), followed by
    the properties of the specification that are settled against it.

    Modelling conventions.
    - A Python [str] is a [string]; each [ascii] stands for the code point
      of the same number (0..255).  The builtins used by the script
      ([str.strip], [str.split], [str.upper], [int], the [d] format) are
      modelled in module [Py] on that range.
    - A Python [int] is a [Z].  Conversions between [int] and [str] refuse
      numbers of more than 4300 decimal digits with [ValueError], as the
      interpreter does by default.
    - The serial port, the clock and standard output are an event trace in
      the controller state; the bytes the device sends back are a queue of
      buffer observations.  Failures of the port itself (a
      [SerialException] raised by [write] or [read]) are outside the model.
    - [str.encode('ascii')] raises [UnicodeEncodeError] on a code point
      above 127, and formatting an [int] of more than 4300 digits raises
      [ValueError]; these are the exceptions the embedded methods can let
      escape. *)

From Stdlib Require Import ZArith NArith List Bool Lia.
From Stdlib Require Import Strings.String Strings.Ascii.
From Stdlib Require Import Numbers.DecimalString Numbers.DecimalN Numbers.DecimalPos.

Import ListNotations.

Local Open Scope string_scope.
Local Open Scope Z_scope.

(* ===================================================================== *)
(** ** Python builtins used by the script *)
(* ===================================================================== *)

Module Py.

Definition code (c : ascii) : N := N_of_ascii c.

Definition in_range (lo hi : N) (c : ascii) : bool :=
  ((lo <=? code c) && (code c <=? hi))%N.

(** [str.isspace] on one character: TAB..CR, FS..US, space, NEL, NBSP. *)
Definition isspace (c : ascii) : bool :=
  in_range 9 13 c || in_range 28 32 c || in_range 133 133 c || in_range 160 160 c.

(** The blanks [int] skips around a number: the C-locale blanks, and the
    two further blanks NEL and NBSP, which [int] first rewrites to a space. *)
Definition int_isspace (c : ascii) : bool :=
  in_range 9 13 c || in_range 32 32 c || in_range 133 133 c || in_range 160 160 c.

Definition isdigit (c : ascii) : bool := in_range 48 57 c.

Definition digit_val (c : ascii) : Z := Z.of_N (code c) - 48.

Definition is_ascii (c : ascii) : bool := (code c <? 128)%N.

Fixpoint all_chars (p : ascii -> bool) (s : string) : bool :=
  match s with
  | EmptyString => true
  | String c r => p c && all_chars p r
  end.

Fixpoint filter_chars (p : ascii -> bool) (s : string) : string :=
  match s with
  | EmptyString => EmptyString
  | String c r => if p c then String c (filter_chars p r) else filter_chars p r
  end.

Definition is_empty (s : string) : bool :=
  match s with EmptyString => true | _ => false end.

(** [s.lstrip()], [s.rstrip()], [s.strip()] *)
Fixpoint lstrip_by (p : ascii -> bool) (s : string) : string :=
  match s with
  | EmptyString => EmptyString
  | String c r => if p c then lstrip_by p r else s
  end.

Fixpoint rstrip_by (p : ascii -> bool) (s : string) : string :=
  match s with
  | EmptyString => EmptyString
  | String c r =>
      let r' := rstrip_by p r in
      if is_empty r' && p c then EmptyString else String c r'
  end.

Definition strip_by (p : ascii -> bool) (s : string) : string :=
  rstrip_by p (lstrip_by p s).

Definition strip : string -> string := strip_by isspace.

(** [s.split(sep)] for a one-character separator: never an empty list. *)
Fixpoint split (sep : ascii) (s : string) : list string :=
  match s with
  | EmptyString => [EmptyString]
  | String c r =>
      if Ascii.eqb c sep then EmptyString :: split sep r
      else match split sep r with
           | f :: fs => String c f :: fs
           | [] => [String c EmptyString]
           end
  end.

(** [s.upper()], exact on code points below 128; code points 128..255
    are left as they are.  Python turns some of those into other
    characters (never into "C" or "#"), so the one use the script makes
    of [upper], the test for the prefix "C#", has the same outcome. *)
Definition upper_char (c : ascii) : ascii :=
  if in_range 97 122 c then ascii_of_N (code c - 32) else c.

Fixpoint upper (s : string) : string :=
  match s with
  | EmptyString => EmptyString
  | String c r => String (upper_char c) (upper r)
  end.

(** [s.startswith(p)], [s.endswith(p)] *)
Definition startswith (p s : string) : bool := String.prefix p s.

Fixpoint endswith (p s : string) : bool :=
  if String.eqb s p then true
  else match s with
       | EmptyString => false
       | String _ r => endswith p r
       end.

(** [s[n:]] *)
Fixpoint slice_from (n : nat) (s : string) : string :=
  match n, s with
  | O, _ => s
  | S _, EmptyString => EmptyString
  | S n', String _ r => slice_from n' r
  end.

(** The digits of [int(s)]: groups of decimal digits, single underscores
    allowed between two digits.  [acc] is the value read so far, [prev]
    tells whether the previous character was a digit. *)
Fixpoint int_digits (acc : Z) (prev : bool) (s : string) : option Z :=
  match s with
  | EmptyString => if prev then Some acc else None
  | String c r =>
      if isdigit c then int_digits (10 * acc + digit_val c) true r
      else if Ascii.eqb c "_" then
             (if prev then int_digits acc false r else None)
      else None
  end.

(** The most decimal digits a conversion between [int] and [str] may
    involve ([sys.get_int_max_str_digits()]). *)
Definition MAX_STR_DIGITS : N := 4300.

Definition within_limit (digits : nat) : bool :=
  (N.of_nat digits <=? MAX_STR_DIGITS)%N.

Definition count_digits (s : string) : nat :=
  String.length (filter_chars isdigit s).

(** The numeral after the sign: refused when it has more digits than
    the limit (leading zeros count, underscores do not). *)
Definition int_body (body : string) : option Z :=
  if within_limit (count_digits body) then int_digits 0 false body else None.

(** [int(s)]: [None] stands for [ValueError]. *)
Definition int (s : string) : option Z :=
  match strip_by int_isspace s with
  | EmptyString => None
  | String c r =>
      if Ascii.eqb c "-" then option_map Z.opp (int_body r)
      else if Ascii.eqb c "+" then int_body r
      else int_body (String c r)
  end.

(** The decimal digits of [n >= 0] *)
Definition str_N (n : N) : string := NilEmpty.string_of_uint (N.to_uint n).

Fixpoint zeros (k : nat) : string :=
  match k with
  | O => EmptyString
  | S k' => String "0" (zeros k')
  end.

(** The text of [format(x, '0<w>d')]: the sign counts in the width and
    the zeros go between the sign and the digits. *)
Definition format_0d_text (w : nat) (x : Z) : string :=
  let digits := str_N (Z.abs_N x) in
  if x <? 0 then String "-" (zeros (w - 1 - String.length digits) ++ digits)
  else zeros (w - String.length digits) ++ digits.

(** Whether [x] may be converted to text: its digits, sign apart, are
    at most [MAX_STR_DIGITS]. *)
Definition in_digit_limit (x : Z) : bool :=
  within_limit (String.length (str_N (Z.abs_N x))).

(** [format(x, '0<w>d')]: [None] stands for [ValueError]. *)
Definition format_0d (w : nat) (x : Z) : option string :=
  if in_digit_limit x then Some (format_0d_text w x) else None.

(** The text of [str(x)], and [str(x)] as an f-string renders [{x}]. *)
Definition str_text (x : Z) : string := format_0d_text 0 x.

Definition str (x : Z) : option string := format_0d 0 x.

(** The first integer that is too long to convert. *)
Definition digit_bound : Z := 10 ^ Z.of_N MAX_STR_DIGITS.

(** The characters a formatted integer is made of. *)
Definition numeral_char (c : ascii) : bool := isdigit c || Ascii.eqb c "-".

End Py.

(* ===================================================================== *)
(** ** Module constants and the controller state *)
(* ===================================================================== *)

Definition BUS_BAUD : Z := 115200.
Definition PULSE_MIN_US : Z := 500.
Definition PULSE_MAX_US : Z := 2500.

(** What the controller does to the outside world, in order. *)
Inductive event : Type :=
| SerialWrite (bytes : string)     (* self.serial.write(bytes) *)
| SerialRead (bytes : string)      (* self.serial.read(n) returned bytes *)
| Sleep (ms : Z)                   (* time.sleep, in milliseconds *)
| Print (text : string).           (* print(text) *)

(** [default_time_ms] is the module global; [rx] lists what the input
    buffer of the port holds at its successive polls ([in_waiting]); a poll
    past the end of the list finds the buffer empty. *)
Record state : Type := mkState {
  default_time_ms : Z;
  trace : list event;
  rx : list string
}.

Definition initial_state (replies : list string) : state :=
  mkState 1000 [] replies.

Inductive exn : Type :=
| UnicodeEncodeError
| ValueError.

Inductive result (A : Type) : Type :=
| Ok (a : A) (s : state)
| Raise (e : exn) (s : state).
Arguments Ok {A} a s.
Arguments Raise {A} e s.

(** State and exception monad of the controller methods. *)
Definition M (A : Type) : Type := state -> result A.

Definition ret {A} (a : A) : M A := fun s => Ok a s.

Definition bind {A B} (m : M A) (k : A -> M B) : M B :=
  fun s => match m s with
           | Ok a s' => k a s'
           | Raise e s' => Raise e s'
           end.

Definition raise {A} (e : exn) : M A := fun s => Raise e s.

Notation "x <- m ;; k" := (bind m (fun x => k))
  (at level 61, m at next level, right associativity).
Notation "m ;;; k" := (bind m (fun _ => k))
  (at level 61, right associativity).

Definition emit (e : event) : M unit :=
  fun s => Ok tt (mkState (default_time_ms s) (trace s ++ [e]) (rx s)).

Definition get_default : M Z := fun s => Ok (default_time_ms s) s.

Definition set_default (v : Z) : M unit :=
  fun s => Ok tt (mkState v (trace s) (rx s)).

(** [text.encode('ascii')] *)
Definition encode_ascii (text : string) : M string :=
  if Py.all_chars Py.is_ascii text then ret text else raise UnicodeEncodeError.

(** [bytes.decode('ascii', errors='ignore')] *)
Definition decode_ascii_ignore (bytes : string) : string :=
  Py.filter_chars Py.is_ascii bytes.

Definition serial_write (bytes : string) : M unit := emit (SerialWrite bytes).

Definition print (text : string) : M unit := emit (Print text).

Definition sleep_ms (ms : Z) : M unit := emit (Sleep ms).

Fixpoint for_each {A} (xs : list A) (body : A -> M unit) : M unit :=
  match xs with
  | [] => ret tt
  | x :: rest => body x ;;; for_each rest body
  end.

(* ===================================================================== *)
(** ** [BusServoController] *)
(* ===================================================================== *)

(** The frame of [send_servo_move], lines 52-58: the clamps, then the
    f-string, whose three conversions can each fail. *)
Definition move_frame (servo_id pulse_us time_ms : Z) : option string :=
  let pulse_us := Z.max PULSE_MIN_US (Z.min PULSE_MAX_US pulse_us) in
  let time_ms := Z.max 1 time_ms in
  let servo_id := Z.min 999 servo_id in
  match Py.format_0d 3 servo_id with
  | None => None
  | Some id_field =>
      match Py.format_0d 4 pulse_us with
      | None => None
      | Some pulse_field =>
          match Py.format_0d 4 time_ms with
          | None => None
          | Some time_field =>
              Some ("#" ++ id_field ++ "P" ++ pulse_field
                        ++ "T" ++ time_field ++ "!")
          end
      end
  end.

Definition send_servo_move (servo_id pulse_us time_ms : Z) : M string :=
  match move_frame servo_id pulse_us time_ms with
  | None => raise ValueError
  | Some frame =>
      bytes <- encode_ascii frame ;;
      serial_write bytes ;;;
      ret frame
  end.

(** The loop [while self.serial.in_waiting > 0: response += read(...)]:
    every poll takes the next observation of the input buffer. *)
Fixpoint drain (polls : list string) (response : string) (tr : list event)
  : string * list event * list string :=
  match polls with
  | [] => (response, tr, [])
  | buffer :: later =>
      if Py.is_empty buffer then (response, tr, later)
      else drain later (response ++ decode_ascii_ignore buffer)
                 (tr ++ [SerialRead buffer])
  end.

Definition read_response : M string :=
  fun s =>
    let '(response, tr, later) := drain (rx s) "" (trace s) in
    Ok response (mkState (default_time_ms s) tr later).

Definition INVALID_PASSTHROUGH : string :=
  "Invalid C# command (must start with C# and end with !)".

Definition newline : string := String (ascii_of_nat 10) "".

(** Lines 75-83 of [send_passthrough]: write the payload, wait for the
    device to settle, collect what it sent back and build the report. *)
Definition passthrough_exchange (payload : string) : M string :=
  bytes <- encode_ascii payload ;;
  serial_write bytes ;;;
  sleep_ms 50 ;;;
  response <- read_response ;;
  ret ("C# sent -> " ++ payload
       ++ (if Py.is_empty response then "" else newline ++ "Response: " ++ response)).

Definition send_passthrough (command : string) : M string :=
  if negb (Py.startswith "C#" (Py.upper command)) || negb (Py.endswith "!" command)
  then ret INVALID_PASSTHROUGH
  else
    let payload := Py.slice_from 1 command in
    passthrough_exchange payload.

(** [parse_segment]; the global it reads is passed as [default_time]. *)
Definition parse_segment (default_time : Z) (segment : string) : option (Z * Z * Z) :=
  let parts := Py.split "," segment in
  if (List.length parts <? 2)%nat then None
  else
    match Py.int (nth 0 parts "") with
    | None => None
    | Some servo_id =>
        match Py.int (nth 1 parts "") with
        | None => None
        | Some pulse =>
            match (if (2 <? List.length parts)%nat then Py.int (nth 2 parts "")
                   else Some default_time) with
            | None => None
            | Some time_ms =>
                if (servo_id <? 0) || (servo_id >? 999) || (pulse <=? 0) || (time_ms <=? 0)
                then None
                else Some (servo_id, pulse, time_ms)
            end
        end
    end.

(** The body of the [for segment in segments] loop, lines 140-150. *)
Definition process_segment (segment : string) : M unit :=
  let segment := Py.strip segment in
  if Py.is_empty segment then ret tt
  else
    d <- get_default ;;
    match parse_segment d segment with
    | Some (servo_id, pulse, time_ms) =>
        frame <- send_servo_move servo_id pulse time_ms ;;
        print ("Sent -> " ++ frame)
    | None => print ("Skip invalid segment: " ++ segment)
    end.

Definition INVALID_CT : string := "Invalid time value for ct command.".

(** The three blocks of [process_command], lines 119-122, 125-135 and
    138-150. *)
Definition passthrough_branch (line : string) : M unit :=
  result <- send_passthrough line ;;
  print result.

(** The message of line 130 is built inside the [try] block: a
    [ValueError] of its conversion would be caught like one of [int]. *)
Definition ct_branch (line : string) : M unit :=
  match Py.int (Py.slice_from 2 line) with
  | Some new_time =>
      if new_time >? 0 then
        set_default new_time ;;;
        d <- get_default ;;
        match Py.str d with
        | Some text => print ("Default time set to: " ++ text ++ " ms")
        | None => print INVALID_CT
        end
      else print INVALID_CT
  | None => print INVALID_CT
  end.

Definition segments_branch (line : string) : M unit :=
  for_each (Py.split ";" line) process_segment.

Definition process_command (line : string) : M unit :=
  let line := Py.strip line in
  if Py.is_empty line then ret tt
  else if Py.startswith "C#" (Py.upper line) then passthrough_branch line
  else if Py.startswith "ct" line then ct_branch line
  else segments_branch line.

(* ===================================================================== *)
(** ** The specification's vocabulary *)
(* ===================================================================== *)

(** The clamps of [encode_move] as the specification words them. *)
Definition spec_clamp_id (id : Z) : Z := if id >? 999 then 999 else id.

Definition spec_clamp_pulse (pulse : Z) : Z :=
  if pulse >? 2500 then 2500 else if pulse <? 500 then 500 else pulse.

Definition spec_floor_duration (duration : Z) : Z :=
  if duration <=? 0 then 1 else duration.

(** The frame layout: start marker, id on 3 digits, "P", pulse on 4,
    "T", duration on 4, end marker. *)
Definition spec_layout (id pulse duration : Z) : string :=
  "#" ++ Py.format_0d_text 3 id ++ "P" ++ Py.format_0d_text 4 pulse
      ++ "T" ++ Py.format_0d_text 4 duration ++ "!".

(** The text of the frame of a move: the layout filled with the clamped
    values.  It is what [move_frame] returns whenever the conversions
    succeed. *)
Definition frame_text (servo_id pulse_us time_ms : Z) : string :=
  let pulse_us := Z.max PULSE_MIN_US (Z.min PULSE_MAX_US pulse_us) in
  let time_ms := Z.max 1 time_ms in
  let servo_id := Z.min 999 servo_id in
  "#" ++ Py.format_0d_text 3 servo_id ++ "P" ++ Py.format_0d_text 4 pulse_us
      ++ "T" ++ Py.format_0d_text 4 time_ms ++ "!".

(** Reading the three numeric fields back at their fixed positions
    (characters 1-3, 5-8 and 10-13). *)
Definition frame_fields (frame : string) : option Z * option Z * option Z :=
  (Py.int (substring 1 3 frame),
   Py.int (substring 5 4 frame),
   Py.int (substring 10 4 frame)).

(** [parse_segment] as the specification describes it. *)
Definition spec_parse_segment (default_duration : Z) (segment : string)
  : option (Z * Z * Z) :=
  match Py.split "," segment with
  | id_field :: pulse_field :: more =>
      let duration_read :=
        match more with
        | [] => Some default_duration
        | duration_field :: _ => Py.int duration_field
        end in
      match Py.int id_field, Py.int pulse_field, duration_read with
      | Some id, Some pulse, Some duration =>
          if (id <? 0) || (999 <? id) || (pulse <=? 0) || (duration <=? 0)
          then None
          else Some (id, pulse, duration)
      | _, _, _ => None
      end
  | _ => None
  end.

(** "Starts, case-insensitively, with the two characters C#". *)
Definition starts_with_C_hash (s : string) : Prop :=
  exists c rest, s = String c (String "#" rest) /\ (c = "C"%char \/ c = "c"%char).

(** "Ends with the terminator !". *)
Definition ends_with_bang (s : string) : Prop :=
  exists body, s = body ++ "!".

(** The three kinds of input line, and the priority order among them. *)
Inductive line_kind : Type :=
| PassthroughLine
| SetDefaultLine
| SegmentsLine.

Definition is_C_hash (s : string) : bool :=
  match s with
  | String c (String h _) =>
      (Ascii.eqb c "C" || Ascii.eqb c "c") && Ascii.eqb h "#"
  | _ => false
  end.

Definition is_ct (s : string) : bool :=
  match s with
  | String c (String t _) => Ascii.eqb c "c" && Ascii.eqb t "t"
  | _ => false
  end.

Definition classify (trimmed : string) : line_kind :=
  if is_C_hash trimmed then PassthroughLine
  else if is_ct trimmed then SetDefaultLine
  else SegmentsLine.

(** What one segment of a move line yields. *)
Inductive parsed_item : Type :=
| MoveCommand (id pulse duration : Z)
| SkipDiagnostic (segment : string).

Definition spec_segments (trimmed : string) : list string :=
  filter (fun segment => negb (Py.is_empty segment))
         (map Py.strip (Py.split ";" trimmed)).

Definition item_of_segment (default_duration : Z) (segment : string) : parsed_item :=
  match parse_segment default_duration segment with
  | Some (id, pulse, duration) => MoveCommand id pulse duration
  | None => SkipDiagnostic segment
  end.

(** What dispatching an item does to the port and to standard output. *)
Definition item_events (item : parsed_item) : list event :=
  match item with
  | MoveCommand id pulse duration =>
      let frame := frame_text id pulse duration in
      [SerialWrite frame; Print ("Sent -> " ++ frame)]
  | SkipDiagnostic segment => [Print ("Skip invalid segment: " ++ segment)]
  end.

Definition add_events (s : state) (evs : list event) : state :=
  mkState (default_time_ms s) (trace s ++ evs) (rx s).

(** A numeral that starts with a digit other than 0. *)
Definition leading_nonzero (d : Decimal.uint) : Prop :=
  match d with
  | Decimal.Nil | Decimal.D0 _ => False
  | _ => True
  end.

(** Case analysis on the 256 characters. *)
Ltac by_char c := destruct c as [[] [] [] [] [] [] [] []]; try reflexivity; try discriminate.

(* ===================================================================== *)
(** ** Facts about the builtins *)
(* ===================================================================== *)

Module PyFacts.
Import Py.

Lemma digit_not_space c : isdigit c = true -> int_isspace c = false.
Proof. by_char c. Qed.

Lemma digit_not_sign c :
  isdigit c = true -> Ascii.eqb c "-" = false /\ Ascii.eqb c "+" = false.
Proof. by_char c; intros _; split; reflexivity. Qed.

Lemma all_chars_impl (p q : ascii -> bool) s :
  (forall c, p c = true -> q c = true) ->
  all_chars p s = true -> all_chars q s = true.
Proof.
  intros Hpq. induction s as [|c r IH]; simpl; [reflexivity|].
  intros H. apply andb_true_iff in H as [Hc Hr].
  rewrite (Hpq _ Hc), (IH Hr). reflexivity.
Qed.

Lemma all_chars_app p a b :
  all_chars p (a ++ b) = all_chars p a && all_chars p b.
Proof.
  induction a as [|c r IH]; simpl; [reflexivity|].
  rewrite IH, andb_assoc. reflexivity.
Qed.

Lemma length_app a b : String.length (a ++ b) = (String.length a + String.length b)%nat.
Proof. induction a as [|c r IH]; simpl; [reflexivity|]. now rewrite IH. Qed.

(** *** [split] *)

Lemma split_not_nil sep s : split sep s <> [].
Proof.
  destruct s as [|c r]; simpl; [discriminate|].
  destruct (Ascii.eqb c sep); [discriminate|].
  destruct (split sep r); discriminate.
Qed.

Lemma split_cons sep c r :
  Ascii.eqb c sep = false ->
  exists f fs, split sep r = f :: fs /\ split sep (String c r) = String c f :: fs.
Proof.
  intros Hc. simpl. rewrite Hc.
  destruct (split sep r) as [|f fs] eqn:E.
  - now apply split_not_nil in E.
  - now exists f, fs.
Qed.

(** Splitting distributes over a separator in the middle. *)
Lemma split_app sep a b :
  split sep (a ++ String sep b) = (split sep a ++ split sep b)%list.
Proof.
  induction a as [|c r IH].
  - simpl. now rewrite Ascii.eqb_refl.
  - cbn [append]. destruct (Ascii.eqb c sep) eqn:Hc.
    + simpl. rewrite Hc, IH. reflexivity.
    + destruct (split_cons sep c r Hc) as (f & fs & E1 & E2).
      rewrite E2. simpl. rewrite Hc, IH, E1. reflexivity.
Qed.

(** A string without the separator is a single field, and conversely. *)
Lemma split_single sep s :
  all_chars (fun c => negb (Ascii.eqb c sep)) s = true <-> split sep s = [s].
Proof.
  induction s as [|c r IH]; simpl.
  - split; reflexivity.
  - destruct (Ascii.eqb c sep) eqn:Hc; simpl.
    + split; [discriminate | intros H; discriminate H].
    + split.
      * intros H. apply IH in H. now rewrite H.
      * destruct (split sep r) as [|f fs] eqn:E.
        -- now apply split_not_nil in E.
        -- intros [= -> ->]. now apply IH.
Qed.

Lemma split_length_lt_2 sep s :
  (List.length (split sep s) < 2)%nat <->
  all_chars (fun c => negb (Ascii.eqb c sep)) s = true.
Proof.
  rewrite split_single. split.
  - induction s as [|c r IH]; simpl; [reflexivity|].
    destruct (Ascii.eqb c sep) eqn:Hc.
    + simpl. pose proof (split_not_nil sep r).
      destruct (split sep r); [contradiction|simpl; lia].
    + destruct (split sep r) as [|f fs] eqn:E; [now apply split_not_nil in E|].
      simpl in *. intros H. specialize (IH H). now injection IH as -> ->.
  - intros ->. simpl. lia.
Qed.

(** *** [strip] *)

Lemma rstrip_by_id p s :
  all_chars (fun c => negb (p c)) s = true -> rstrip_by p s = s.
Proof.
  induction s as [|c r IH]; simpl; [reflexivity|].
  intros H. apply andb_true_iff in H as [Hc Hr].
  rewrite (IH Hr). apply negb_true_iff in Hc. rewrite Hc, andb_false_r.
  reflexivity.
Qed.

Lemma strip_by_id p s :
  all_chars (fun c => negb (p c)) s = true -> strip_by p s = s.
Proof.
  intros H. unfold strip_by.
  assert (lstrip_by p s = s) as ->.
  { destruct s as [|c r]; simpl in *; [reflexivity|].
    apply andb_true_iff in H as [Hc _]. apply negb_true_iff in Hc.
    now rewrite Hc. }
  now apply rstrip_by_id.
Qed.

(** *** Decimal digits *)

Local Abbreviation sou := NilEmpty.string_of_uint.

Lemma digits_all d : all_chars isdigit (sou d) = true.
Proof. induction d; simpl; auto. Qed.

Lemma length_sou d : N.of_nat (String.length (sou d)) = Unsigned.usize d.
Proof.
  induction d; cbn [sou String.length Unsigned.usize];
    rewrite ?Nat2N.inj_succ, ?IHd; reflexivity.
Qed.

(** Reading the digits of [d] after a value [acc] shifts [acc] left. *)
Lemma int_digits_uint d : forall acc,
  int_digits acc true (sou d)
  = Some (acc * 10 ^ Z.of_N (Unsigned.usize d)
          + Z.of_N (Unsigned.of_lu (Decimal.rev d))).
Proof.
  induction d; intros acc;
    [ simpl; f_equal; lia | .. ];
    cbn [sou int_digits];
    match goal with
    | |- context [isdigit ?c] => change (isdigit c) with true; cbv iota
    end;
    rewrite IHd; f_equal;
    unfold Decimal.rev at 2; cbn [Decimal.revapp];
    rewrite Unsigned.of_lu_revapp; cbn [Unsigned.of_lu Unsigned.usize];
    rewrite N.mul_0_r, ?N.add_0_r;
    rewrite N2Z.inj_succ, Z.pow_succ_r by lia;
    rewrite ?N2Z.inj_add, ?N2Z.inj_mul, ?N2Z.inj_pow;
    match goal with
    | |- context [digit_val ?c] =>
        let v := eval vm_compute in (digit_val c) in
        change (digit_val c) with v
    end;
    change (Z.of_N 10) with 10;
    generalize (Z.of_N (Unsigned.of_lu (Decimal.rev d)));
    generalize (10 ^ Z.of_N (Unsigned.usize d));
    intros P V; cbn [Z.of_N]; lia.
Qed.

Lemma of_lu_rev_to_uint n : Unsigned.of_lu (Decimal.rev (N.to_uint n)) = n.
Proof.
  rewrite <- Unsigned.of_uint_alt.
  change (Pos.of_uint (N.to_uint n)) with (N.of_uint (N.to_uint n)).
  apply DecimalN.Unsigned.of_to.
Qed.

Lemma to_uint_not_nil n : N.to_uint n <> Decimal.Nil.
Proof.
  destruct n; simpl; [discriminate|]. apply Unsigned.to_uint_nonnil.
Qed.

Lemma int_digits_sou d prev :
  d <> Decimal.Nil ->
  int_digits 0 prev (sou d) = Some (Z.of_N (Unsigned.of_lu (Decimal.rev d))).
Proof.
  intros Hd.
  assert (int_digits 0 prev (sou d) = int_digits 0 true (sou d)) as ->.
  { destruct d; [contradiction | reflexivity ..]. }
  rewrite int_digits_uint. reflexivity.
Qed.

Lemma int_digits_zeros k : forall prev d,
  d <> Decimal.Nil ->
  int_digits 0 prev (zeros k ++ sou d)
  = Some (Z.of_N (Unsigned.of_lu (Decimal.rev d))).
Proof.
  induction k as [|k IH]; intros prev d Hd.
  - now apply int_digits_sou.
  - cbn [zeros append int_digits].
    change (isdigit "0") with true. cbv iota.
    change (10 * 0 + digit_val "0") with 0. now apply IH.
Qed.

Lemma zeros_all k : all_chars isdigit (zeros k) = true.
Proof. induction k; simpl; auto. Qed.

Lemma length_zeros k : String.length (zeros k) = k.
Proof. induction k; simpl; auto. Qed.

Lemma padded_all k d : all_chars isdigit (zeros k ++ sou d) = true.
Proof. now rewrite all_chars_app, zeros_all, digits_all. Qed.

(** *** The digit limit *)

Lemma within_limit_le a b :
  (a <= b)%nat -> within_limit b = true -> within_limit a = true.
Proof.
  unfold within_limit. intros Hab Hb.
  apply N.leb_le in Hb. apply N.leb_le. lia.
Qed.

Lemma within_limit_max a b :
  within_limit a = true -> within_limit b = true ->
  within_limit (Nat.max a b) = true.
Proof.
  intros Ha Hb. destruct (Nat.max_dec a b) as [-> | ->]; assumption.
Qed.

Lemma count_digits_all s :
  all_chars isdigit s = true -> count_digits s = String.length s.
Proof.
  unfold count_digits. induction s as [|c r IH]; cbn; [reflexivity|].
  intros H. apply andb_true_iff in H as [-> Hr]. cbn. now rewrite IH.
Qed.

Lemma padded_within w k d :
  within_limit w = true ->
  within_limit (String.length (sou d)) = true ->
  (k <= w - String.length (sou d))%nat ->
  within_limit (count_digits (zeros k ++ sou d)) = true.
Proof.
  intros Hw Hd Hk.
  rewrite count_digits_all by apply padded_all.
  rewrite length_app, length_zeros.
  apply (within_limit_le _ (Nat.max w (String.length (sou d)))); [lia|].
  now apply within_limit_max.
Qed.

(** A non-empty run of digits is read by [int] as it stands. *)
Lemma int_of_digits s :
  is_empty s = false -> all_chars isdigit s = true ->
  int s = int_body s.
Proof.
  intros Hne Hall. unfold int.
  rewrite strip_by_id.
  - destruct s as [|c r]; [discriminate|].
    simpl in Hall. apply andb_true_iff in Hall as [Hc _].
    destruct (digit_not_sign c Hc) as [-> ->]. reflexivity.
  - eapply all_chars_impl; [|exact Hall].
    intros c Hc. now rewrite (digit_not_space c Hc).
Qed.

Lemma int_of_minus_digits r :
  all_chars isdigit r = true ->
  int (String "-" r) = option_map Z.opp (int_body r).
Proof.
  intros Hall. unfold int.
  rewrite strip_by_id; [reflexivity|].
  cbn [all_chars]. apply andb_true_iff. split; [reflexivity|].
  eapply all_chars_impl; [|exact Hall].
  intros c Hc. now rewrite (digit_not_space c Hc).
Qed.

Lemma padded_not_empty k d : d <> Decimal.Nil -> is_empty (zeros k ++ sou d) = false.
Proof.
  intros Hd. destruct k; [|reflexivity].
  destruct d; [contradiction | reflexivity ..].
Qed.

(** [int] reads back what the [d] format writes, as long as the width
    and the number of digits are within the limit. *)
Theorem int_format_0d w x :
  within_limit w = true -> in_digit_limit x = true ->
  int (format_0d_text w x) = Some x.
Proof.
  unfold in_digit_limit, format_0d_text, str_N. intros Hw Hx.
  pose proof (to_uint_not_nil (Z.abs_N x)) as Hnn.
  destruct (x <? 0) eqn:Hneg.
  - rewrite int_of_minus_digits by apply padded_all.
    unfold int_body. rewrite (padded_within w) by (assumption || lia).
    rewrite int_digits_zeros by exact Hnn.
    rewrite of_lu_rev_to_uint. cbn [option_map]. f_equal.
    apply Z.ltb_lt in Hneg. rewrite N2Z.inj_abs_N. lia.
  - rewrite int_of_digits by (apply padded_not_empty, Hnn || apply padded_all).
    unfold int_body. rewrite (padded_within w) by (assumption || lia).
    rewrite int_digits_zeros by exact Hnn.
    rewrite of_lu_rev_to_uint. f_equal.
    apply Z.ltb_ge in Hneg. rewrite N2Z.inj_abs_N. lia.
Qed.

Corollary int_str x : in_digit_limit x = true -> int (str_text x) = Some x.
Proof. now apply int_format_0d. Qed.

Lemma format_0d_some w x :
  in_digit_limit x = true -> format_0d w x = Some (format_0d_text w x).
Proof. unfold format_0d. now intros ->. Qed.

Lemma format_0d_none w x : in_digit_limit x = false -> format_0d w x = None.
Proof. unfold format_0d. now intros ->. Qed.

Lemma format_0d_inv w x text :
  format_0d w x = Some text -> in_digit_limit x = true /\ text = format_0d_text w x.
Proof.
  unfold format_0d. destruct (in_digit_limit x); [|discriminate].
  now intros [= <-].
Qed.

Lemma str_inv x text :
  str x = Some text -> in_digit_limit x = true /\ text = str_text x.
Proof. apply format_0d_inv. Qed.

(** The [d] format writes nothing but digits and a minus sign. *)
Lemma format_0d_chars w x : all_chars numeral_char (format_0d_text w x) = true.
Proof.
  unfold format_0d_text, str_N. destruct (x <? 0); cbn [all_chars].
  - apply andb_true_iff. split; [reflexivity|].
    eapply all_chars_impl; [|apply padded_all].
    intros c Hc. unfold numeral_char. now rewrite Hc.
  - eapply all_chars_impl; [|apply padded_all].
    intros c Hc. unfold numeral_char. now rewrite Hc.
Qed.

Lemma numeral_char_is_ascii c : numeral_char c = true -> is_ascii c = true.
Proof. by_char c. Qed.

Lemma numeral_char_not_space c : numeral_char c = true -> negb (isspace c) = true.
Proof. by_char c. Qed.

Lemma numeral_char_not_comma c :
  numeral_char c = true -> negb (Ascii.eqb c ",") = true.
Proof. by_char c. Qed.

Lemma numeral_char_not_semicolon c :
  numeral_char c = true -> negb (Ascii.eqb c ";") = true.
Proof. by_char c. Qed.

Lemma format_0d_ascii w x : all_chars is_ascii (format_0d_text w x) = true.
Proof.
  eapply all_chars_impl; [apply numeral_char_is_ascii | apply format_0d_chars].
Qed.

(** *** How many digits a number takes *)

Lemma of_lu_rev_cons (d : Decimal.uint) (k : Decimal.uint -> Decimal.uint) :
  Decimal.rev (k d) = Decimal.revapp d (k Decimal.Nil) ->
  Unsigned.of_lu (Decimal.rev (k d))
  = (Unsigned.of_lu (Decimal.rev d)
     + Unsigned.of_lu (k Decimal.Nil) * 10 ^ Unsigned.usize d)%N.
Proof. intros ->. apply Unsigned.of_lu_revapp. Qed.

Lemma value_lt d :
  (Unsigned.of_lu (Decimal.rev d) < 10 ^ Unsigned.usize d)%N.
Proof.
  induction d;
    [ cbn; lia | .. ];
    rewrite of_lu_rev_cons by reflexivity;
    cbn [Unsigned.of_lu Unsigned.usize];
    rewrite N.pow_succ_r'; lia.
Qed.

(** A normalised numeral is "0" or starts with a digit other than 0. *)
Lemma unorm_shape d :
  Decimal.unorm d = Decimal.zero \/ leading_nonzero (Decimal.unorm d).
Proof. induction d; simpl; auto. Qed.

Lemma value_ge d :
  leading_nonzero d ->
  (10 ^ N.pred (Unsigned.usize d) <= Unsigned.of_lu (Decimal.rev d))%N.
Proof.
  destruct d; cbn [leading_nonzero]; try contradiction; intros _;
    rewrite of_lu_rev_cons by reflexivity;
    cbn [Unsigned.of_lu Unsigned.usize];
    rewrite N.pred_succ; lia.
Qed.

Lemma to_uint_normal n : Decimal.unorm (N.to_uint n) = N.to_uint n.
Proof.
  rewrite <- (DecimalN.Unsigned.of_to n) at 2.
  symmetry. apply DecimalN.Unsigned.to_of.
Qed.

Lemma length_str_N n :
  N.of_nat (String.length (str_N n)) = Unsigned.usize (N.to_uint n).
Proof. apply length_sou. Qed.

Lemma length_str_N_le n w :
  (1 <= w)%N -> (n < 10 ^ w)%N -> (N.of_nat (String.length (str_N n)) <= w)%N.
Proof.
  intros Hw Hn. rewrite length_str_N.
  pose proof (of_lu_rev_to_uint n) as Hv.
  destruct (unorm_shape (N.to_uint n)) as [Hz | Hl]; rewrite to_uint_normal in *.
  - rewrite Hz. cbn. lia.
  - apply value_ge in Hl. rewrite Hv in Hl.
    assert (10 ^ N.pred (Unsigned.usize (N.to_uint n)) < 10 ^ w)%N as Hlt by lia.
    apply N.pow_lt_mono_r_iff in Hlt; lia.
Qed.

Lemma length_str_N_gt n w :
  (10 ^ w <= n)%N -> (w < N.of_nat (String.length (str_N n)))%N.
Proof.
  intros Hn. rewrite length_str_N.
  pose proof (value_lt (N.to_uint n)) as Hv. rewrite of_lu_rev_to_uint in Hv.
  assert (10 ^ w < 10 ^ Unsigned.usize (N.to_uint n))%N as Hlt by lia.
  apply N.pow_lt_mono_r_iff in Hlt; lia.
Qed.

Lemma length_format_0d_nonneg w x :
  0 <= x ->
  String.length (format_0d_text w x) = Nat.max w (String.length (str_N (Z.to_N x))).
Proof.
  intros Hx. unfold format_0d_text.
  assert ((x <? 0) = false) as -> by now apply Z.ltb_ge.
  assert (Z.abs_N x = Z.to_N x) as -> by (destruct x; try reflexivity; lia).
  rewrite length_app, length_zeros. lia.
Qed.

(** A value of at most [w] digits is written on exactly [w] characters. *)
Theorem length_format_0d_fits w x :
  (1 <= w)%nat -> 0 <= x < 10 ^ Z.of_nat w ->
  String.length (format_0d_text w x) = w.
Proof.
  intros Hw [Hx Hlt]. rewrite length_format_0d_nonneg by exact Hx.
  pose proof (length_str_N_le (Z.to_N x) (N.of_nat w)) as H.
  assert (Z.to_N x < 10 ^ N.of_nat w)%N as Hn.
  { apply N2Z.inj_lt. rewrite N2Z.inj_pow, Z2N.id, nat_N_Z by exact Hx.
    exact Hlt. }
  specialize (H ltac:(lia) Hn). lia.
Qed.

(** A value of more than [w] digits overflows the field. *)
Theorem length_format_0d_overflow w x :
  10 ^ Z.of_nat w <= x ->
  (w < String.length (format_0d_text w x))%nat.
Proof.
  intros Hx.
  assert (0 < 10 ^ Z.of_nat w) as Hpos by (apply Z.pow_pos_nonneg; lia).
  rewrite length_format_0d_nonneg by lia.
  pose proof (length_str_N_gt (Z.to_N x) (N.of_nat w)) as H.
  assert (10 ^ N.of_nat w <= Z.to_N x)%N as Hn.
  { apply N2Z.inj_le. rewrite N2Z.inj_pow, Z2N.id, nat_N_Z by lia.
    exact Hx. }
  specialize (H Hn). lia.
Qed.

(** *** What the digit limit lets through *)

Lemma within_limit_iff n :
  within_limit n = true <-> (N.of_nat n <= MAX_STR_DIGITS)%N.
Proof. unfold within_limit. apply N.leb_le. Qed.

Lemma in_digit_limit_N x :
  in_digit_limit x = true <-> (Z.abs_N x < 10 ^ MAX_STR_DIGITS)%N.
Proof.
  unfold in_digit_limit. rewrite within_limit_iff. split.
  - intros H.
    destruct (N.lt_ge_cases (Z.abs_N x) (10 ^ MAX_STR_DIGITS)) as [Hlt|Hge];
      [exact Hlt|].
    apply length_str_N_gt in Hge. lia.
  - intros H. apply length_str_N_le; [|exact H].
    unfold MAX_STR_DIGITS. lia.
Qed.

(** The numbers that can be converted are those between the bounds. *)
Lemma in_digit_limit_iff x :
  in_digit_limit x = true <-> Z.abs x < digit_bound.
Proof.
  rewrite in_digit_limit_N. unfold digit_bound.
  rewrite <- N2Z.inj_abs_N.
  change (10 ^ Z.of_N MAX_STR_DIGITS) with (Z.of_N 10 ^ Z.of_N MAX_STR_DIGITS).
  rewrite <- N2Z.inj_pow. apply N2Z.inj_lt.
Qed.

Lemma digit_bound_large : 10000 <= digit_bound.
Proof.
  unfold digit_bound. change 10000 with (10 ^ 4).
  apply Z.pow_le_mono_r; [lia|]. unfold MAX_STR_DIGITS. cbn. lia.
Qed.

Lemma in_digit_limit_small x : Z.abs x < 10000 -> in_digit_limit x = true.
Proof.
  intros H. apply in_digit_limit_iff. pose proof digit_bound_large. lia.
Qed.

Lemma digit_val_range c : isdigit c = true -> 0 <= digit_val c <= 9.
Proof.
  destruct c as [[] [] [] [] [] [] [] []]; intros H; try discriminate H;
    vm_compute; split; discriminate.
Qed.

(** Reading [k] digits after a value [acc] gives a value between
    [acc * 10^k] and [(acc + 1) * 10^k]. *)
Lemma int_digits_bound s : forall acc prev v,
  0 <= acc ->
  int_digits acc prev s = Some v ->
  acc * 10 ^ Z.of_nat (count_digits s) <= v
  < (acc + 1) * 10 ^ Z.of_nat (count_digits s).
Proof.
  unfold count_digits.
  induction s as [|c r IH]; intros acc prev v Hacc H; cbn [int_digits] in H.
  - destruct prev; [|discriminate]. injection H as <-. cbn. lia.
  - cbn [filter_chars]. destruct (isdigit c) eqn:Hd.
    + pose proof (digit_val_range c Hd) as Hr.
      apply IH in H; [|lia].
      cbn [String.length]. rewrite Nat2Z.inj_succ, Z.pow_succ_r by lia.
      assert (0 < 10 ^ Z.of_nat (String.length (filter_chars isdigit r)))
        by (apply Z.pow_pos_nonneg; lia).
      nia.
    + destruct (Ascii.eqb c "_"); [|discriminate].
      destruct prev; [|discriminate]. now apply IH in H.
Qed.

Lemma int_body_bound s v : int_body s = Some v -> 0 <= v < digit_bound.
Proof.
  unfold int_body. destruct (within_limit (count_digits s)) eqn:Hl; [|discriminate].
  intros H. apply int_digits_bound in H; [|lia].
  apply within_limit_iff in Hl.
  assert (10 ^ Z.of_nat (count_digits s) <= digit_bound) as Hle.
  { unfold digit_bound. apply Z.pow_le_mono_r; lia. }
  lia.
Qed.

(** What [int] returns can be converted back to text. *)
Theorem int_in_digit_limit s v : int s = Some v -> in_digit_limit v = true.
Proof.
  unfold int. intros H. apply in_digit_limit_iff.
  destruct (strip_by int_isspace s) as [|c r]; [discriminate|].
  destruct (Ascii.eqb c "-").
  - destruct (int_body r) as [u|] eqn:E; [|discriminate].
    injection H as <-. apply int_body_bound in E. lia.
  - destruct (Ascii.eqb c "+"); apply int_body_bound in H; lia.
Qed.

End PyFacts.

(* ===================================================================== *)
(** ** The frame codec: [send_servo_move] *)
(* ===================================================================== *)

Section FrameCodec.
Import Py PyFacts.

Lemma add_events_nil s : add_events s [] = s.
Proof. destruct s. unfold add_events. cbn. now rewrite app_nil_r. Qed.

Lemma add_events_app s a b :
  add_events (add_events s a) b = add_events s (a ++ b).
Proof. unfold add_events. cbn. now rewrite <- List.app_assoc. Qed.

Lemma emit_run e s : emit e s = Ok tt (add_events s [e]).
Proof. reflexivity. Qed.

Lemma move_frame_ascii servo_id pulse_us time_ms :
  all_chars is_ascii (frame_text servo_id pulse_us time_ms) = true.
Proof.
  unfold frame_text.
  repeat (rewrite all_chars_app; apply andb_true_iff; split);
    try reflexivity; apply format_0d_ascii.
Qed.

(** The pulse is clamped before it is formatted; the id and the
    duration are bounded on one side only and decide whether the f-string
    can be built. *)
Lemma move_frame_cases servo_id pulse_us time_ms :
  move_frame servo_id pulse_us time_ms
  = if in_digit_limit (Z.min 999 servo_id) && in_digit_limit (Z.max 1 time_ms)
    then Some (frame_text servo_id pulse_us time_ms)
    else None.
Proof.
  unfold move_frame, frame_text, format_0d.
  assert (in_digit_limit (Z.max PULSE_MIN_US (Z.min PULSE_MAX_US pulse_us)) = true)
    as -> by (apply in_digit_limit_small; unfold PULSE_MIN_US, PULSE_MAX_US; lia).
  destruct (in_digit_limit (Z.min 999 servo_id));
    destruct (in_digit_limit (Z.max 1 time_ms)); reflexivity.
Qed.

Lemma clamped_id_in_limit servo_id :
  in_digit_limit (Z.min 999 servo_id) = true <-> - digit_bound < servo_id.
Proof.
  rewrite in_digit_limit_iff. pose proof digit_bound_large. lia.
Qed.

Lemma floored_time_in_limit time_ms :
  in_digit_limit (Z.max 1 time_ms) = true <-> time_ms < digit_bound.
Proof.
  rewrite in_digit_limit_iff. pose proof digit_bound_large. lia.
Qed.

Lemma move_frame_some servo_id pulse_us time_ms :
  - digit_bound < servo_id -> time_ms < digit_bound ->
  move_frame servo_id pulse_us time_ms = Some (frame_text servo_id pulse_us time_ms).
Proof.
  intros Hi Ht. rewrite move_frame_cases.
  apply clamped_id_in_limit in Hi. apply floored_time_in_limit in Ht.
  now rewrite Hi, Ht.
Qed.

Lemma move_frame_inv servo_id pulse_us time_ms frame :
  move_frame servo_id pulse_us time_ms = Some frame ->
  frame = frame_text servo_id pulse_us time_ms /\
  - digit_bound < servo_id /\ time_ms < digit_bound.
Proof.
  rewrite move_frame_cases.
  destruct (in_digit_limit (Z.min 999 servo_id)) eqn:Hi; [|discriminate].
  destruct (in_digit_limit (Z.max 1 time_ms)) eqn:Ht; [|discriminate].
  intros [= <-]. apply clamped_id_in_limit in Hi. apply floored_time_in_limit in Ht.
  auto.
Qed.

(** The method writes the frame and hands it back, or raises before it
    has written anything. *)
Lemma send_servo_move_cases servo_id pulse_us time_ms s :
  send_servo_move servo_id pulse_us time_ms s
  = if in_digit_limit (Z.min 999 servo_id) && in_digit_limit (Z.max 1 time_ms)
    then Ok (frame_text servo_id pulse_us time_ms)
            (add_events s [SerialWrite (frame_text servo_id pulse_us time_ms)])
    else Raise ValueError s.
Proof.
  unfold send_servo_move. rewrite move_frame_cases.
  destruct (in_digit_limit (Z.min 999 servo_id) && in_digit_limit (Z.max 1 time_ms));
    [|reflexivity].
  unfold bind, encode_ascii. rewrite move_frame_ascii. reflexivity.
Qed.

Lemma send_servo_move_run servo_id pulse_us time_ms s :
  - digit_bound < servo_id -> time_ms < digit_bound ->
  send_servo_move servo_id pulse_us time_ms s
  = Ok (frame_text servo_id pulse_us time_ms)
       (add_events s [SerialWrite (frame_text servo_id pulse_us time_ms)]).
Proof.
  intros Hi Ht. rewrite send_servo_move_cases.
  apply clamped_id_in_limit in Hi. apply floored_time_in_limit in Ht.
  now rewrite Hi, Ht.
Qed.

Lemma max_min_clamp pulse :
  Z.max PULSE_MIN_US (Z.min PULSE_MAX_US pulse) = spec_clamp_pulse pulse.
Proof.
  unfold spec_clamp_pulse, PULSE_MIN_US, PULSE_MAX_US.
  destruct (Z.gtb_spec pulse 2500), (Z.ltb_spec pulse 500); lia.
Qed.

Lemma min_clamp id : Z.min 999 id = spec_clamp_id id.
Proof. unfold spec_clamp_id. destruct (Z.gtb_spec id 999); lia. Qed.

Lemma max_floor duration : Z.max 1 duration = spec_floor_duration duration.
Proof. unfold spec_floor_duration. destruct (Z.leb_spec duration 0); lia. Qed.

Lemma move_frame_layout servo_id pulse_us time_ms :
  frame_text servo_id pulse_us time_ms
  = spec_layout (spec_clamp_id servo_id) (spec_clamp_pulse pulse_us)
                (spec_floor_duration time_ms).
Proof.
  unfold frame_text, spec_layout.
  now rewrite max_min_clamp, min_clamp, max_floor.
Qed.

(** C2.  For every integer triple whose id is above [-10^4300] and
    whose duration is below [10^4300], [send_servo_move] returns
    normally; the frame it writes to the port and returns is the fixed
    layout filled with the id lowered to 999 when above, the pulse width
    brought into 500..2500, and the duration raised to 1 when zero or
    negative; values already within these bounds are written as they
    are. *)
Theorem send_servo_move_clamps servo_id pulse_us time_ms s :
  - digit_bound < servo_id -> time_ms < digit_bound ->
  let frame := spec_layout (spec_clamp_id servo_id)
                           (spec_clamp_pulse pulse_us)
                           (spec_floor_duration time_ms) in
  send_servo_move servo_id pulse_us time_ms s
  = Ok frame (add_events s [SerialWrite frame]).
Proof.
  intros Hi Ht. cbv zeta.
  rewrite send_servo_move_run, move_frame_layout by assumption. reflexivity.
Qed.

Lemma send_servo_move_clamps_witness :
  - digit_bound < 1234 /\ -7 < digit_bound /\
  send_servo_move 1234 40 (-7) (initial_state [])
  = Ok "#999P0500T0001!" (mkState 1000 [SerialWrite "#999P0500T0001!"] []).
Proof.
  assert (H1 : - digit_bound < 1234) by (pose proof digit_bound_large; lia).
  assert (H2 : -7 < digit_bound) by (pose proof digit_bound_large; lia).
  split; [exact H1 | split; [exact H2|]].
  exact (send_servo_move_clamps 1234 40 (-7) (initial_state []) H1 H2).
Defined.

(** C2, the input that makes the method fail: a duration of 4301 digits
    cannot be formatted, the f-string raises [ValueError] and nothing is
    written. *)
Lemma send_servo_move_long_duration_raises :
  send_servo_move 0 1500 (10 ^ 4300) (initial_state [])
  = Raise ValueError (initial_state []).
Proof.
  rewrite send_servo_move_cases.
  assert (in_digit_limit (Z.max 1 (10 ^ 4300)) = false) as ->;
    [|now rewrite andb_false_r].
  change (10 ^ 4300) with digit_bound.
  destruct (in_digit_limit (Z.max 1 digit_bound)) eqn:E; [|reflexivity].
  apply floored_time_in_limit in E. lia.
Qed.

(** The layout read back, field by field. *)
Lemma layout_fields a b c :
  String.length a = 3%nat -> String.length b = 4%nat -> String.length c = 4%nat ->
  let frame := "#" ++ a ++ "P" ++ b ++ "T" ++ c ++ "!" in
  String.length frame = 15%nat /\
  substring 1 3 frame = a /\ substring 5 4 frame = b /\ substring 10 4 frame = c.
Proof.
  intros Ha Hb Hc.
  destruct a as [|a1 [|a2 [|a3 [|? ?]]]]; try discriminate Ha.
  destruct b as [|b1 [|b2 [|b3 [|b4 [|? ?]]]]]; try discriminate Hb.
  destruct c as [|c1 [|c2 [|c3 [|c4 [|? ?]]]]]; try discriminate Hc.
  cbn. repeat split; reflexivity.
Qed.

(** Within the documented ranges, duration at most 9999 included, the
    frame has 15 characters and its three fields read back as the
    inputs. *)
Theorem move_frame_round_trip servo_id pulse_us time_ms :
  0 <= servo_id <= 999 -> 500 <= pulse_us <= 2500 -> 1 <= time_ms <= 9999 ->
  String.length (frame_text servo_id pulse_us time_ms) = 15%nat /\
  frame_fields (frame_text servo_id pulse_us time_ms)
  = (Some servo_id, Some pulse_us, Some time_ms).
Proof.
  intros Hid Hp Ht.
  unfold frame_text, frame_fields, PULSE_MIN_US, PULSE_MAX_US.
  rewrite (Z.min_r 999 servo_id), (Z.min_r 2500 pulse_us),
          (Z.max_r 500 pulse_us), (Z.max_r 1 time_ms) by lia.
  destruct (layout_fields (format_0d_text 3 servo_id) (format_0d_text 4 pulse_us)
                          (format_0d_text 4 time_ms))
    as (Hlen & Ha & Hb & Hc);
    try (apply length_format_0d_fits; [lia | cbn; lia]).
  split; [exact Hlen|].
  rewrite Ha, Hb, Hc.
  rewrite !int_format_0d by (reflexivity || (apply in_digit_limit_small; lia)).
  reflexivity.
Qed.

(** No bound is put on the duration from above: from 10000 on, the
    duration field takes more than 4 characters and the frame more
    than 15. *)
Theorem move_frame_duration_overflow servo_id pulse_us time_ms :
  0 <= servo_id -> 10000 <= time_ms ->
  (15 < String.length (frame_text servo_id pulse_us time_ms))%nat.
Proof.
  intros Hid Ht. unfold frame_text.
  rewrite (Z.max_r 1 time_ms) by lia.
  pose proof (length_format_0d_overflow 4 time_ms ltac:(cbn; lia)) as Hd.
  assert (3 <= String.length (format_0d_text 3 (Z.min 999 servo_id)))%nat as Hi.
  { rewrite length_format_0d_nonneg by lia. lia. }
  assert (4 <= String.length
                 (format_0d_text 4 (Z.max PULSE_MIN_US (Z.min PULSE_MAX_US pulse_us))))%nat
    as Hp.
  { rewrite length_format_0d_nonneg by (unfold PULSE_MIN_US; lia). lia. }
  rewrite !length_app. cbn [String.length]. lia.
Qed.

(** C1.  The frame of id 0, pulse 1500, duration 10000 (the input line
    "0,1500,10000" reaches [send_servo_move] with these values): it has
    16 characters, not 15, and characters 10-13 read back as 1000. *)
Theorem move_frame_16_characters :
  process_command "0,1500,10000" (initial_state [])
  = Ok tt (mkState 1000 [SerialWrite "#000P1500T10000!";
                         Print "Sent -> #000P1500T10000!"] []) /\
  move_frame 0 1500 10000 = Some "#000P1500T10000!" /\
  String.length "#000P1500T10000!" = 16%nat /\
  frame_fields "#000P1500T10000!" = (Some 0, Some 1500, Some 1000).
Proof. repeat split; vm_compute; reflexivity. Qed.

End FrameCodec.

(* ===================================================================== *)
(** ** The segment parser: [parse_segment] *)
(* ===================================================================== *)

Section CommandParser.
Import Py PyFacts.

(** The fields are taken by position; [len(parts) > 2] is "there is a
    third field". *)
Lemma parse_segment_fields default_time segment :
  parse_segment default_time segment =
  match split "," segment with
  | f0 :: f1 :: more =>
      match int f0, int f1,
            match more with [] => Some default_time | f2 :: _ => int f2 end with
      | Some i, Some p, Some t =>
          if (i <? 0) || (999 <? i) || (p <=? 0) || (t <=? 0) then None
          else Some (i, p, t)
      | _, _, _ => None
      end
  | _ => None
  end.
Proof.
  unfold parse_segment.
  destruct (split "," segment) as [|f0 [|f1 [|f2 more]]]; cbn; try reflexivity.
  - destruct (int f0) as [i|]; [|reflexivity].
    destruct (int f1) as [p|]; [|reflexivity].
    now rewrite Z.gtb_ltb.
  - destruct (int f0) as [i|]; [|reflexivity].
    destruct (int f1) as [p|]; [|reflexivity].
    destruct (int f2) as [t|]; [|reflexivity].
    now rewrite Z.gtb_ltb.
Qed.

(** C3.  [parse_segment] is the parser of the specification: no result
    with fewer than two comma-separated fields, with a used field that
    [int] refuses, or with id < 0, id > 999, pulse <= 0 or duration <= 0;
    otherwise the triple as read, the duration being the third field when
    there is one and the default otherwise.  Nothing is clamped. *)
Theorem parse_segment_spec default_time segment :
  parse_segment default_time segment = spec_parse_segment default_time segment.
Proof. apply parse_segment_fields. Qed.

(** The cases of the specification, one by one. *)
Lemma parse_segment_no_comma default_time segment :
  (List.length (split "," segment) < 2)%nat ->
  parse_segment default_time segment = None.
Proof.
  intros H. rewrite parse_segment_fields.
  destruct (split "," segment) as [|f0 [|f1 more]]; try reflexivity.
  cbn in H. lia.
Qed.

Lemma parse_segment_accepts default_time segment f0 f1 more i p t :
  split "," segment = f0 :: f1 :: more ->
  int f0 = Some i -> int f1 = Some p ->
  match more with [] => Some default_time | f2 :: _ => int f2 end = Some t ->
  0 <= i <= 999 -> 0 < p -> 0 < t ->
  parse_segment default_time segment = Some (i, p, t).
Proof.
  intros Hs H0 H1 H2 Hi Hp Ht.
  rewrite parse_segment_fields, Hs, H0, H1, H2.
  assert ((i <? 0) = false) as -> by (apply Z.ltb_ge; lia).
  assert ((999 <? i) = false) as -> by (apply Z.ltb_ge; lia).
  assert ((p <=? 0) = false) as -> by (apply Z.leb_gt; lia).
  assert ((t <=? 0) = false) as -> by (apply Z.leb_gt; lia).
  reflexivity.
Qed.

Lemma parse_segment_rejects_range default_time segment f0 f1 more i p t :
  split "," segment = f0 :: f1 :: more ->
  int f0 = Some i -> int f1 = Some p ->
  match more with [] => Some default_time | f2 :: _ => int f2 end = Some t ->
  i < 0 \/ 999 < i \/ p <= 0 \/ t <= 0 ->
  parse_segment default_time segment = None.
Proof.
  intros Hs H0 H1 H2 Hr.
  rewrite parse_segment_fields, Hs, H0, H1, H2.
  destruct (Z.ltb_spec i 0); [reflexivity|].
  destruct (Z.ltb_spec 999 i); [reflexivity|].
  destruct (Z.leb_spec p 0); [reflexivity|].
  destruct (Z.leb_spec t 0); [reflexivity|].
  lia.
Qed.

Lemma parse_segment_rejects_field default_time segment f0 f1 more :
  split "," segment = f0 :: f1 :: more ->
  int f0 = None \/ int f1 = None \/
  (exists f2 rest, more = f2 :: rest /\ int f2 = None) ->
  parse_segment default_time segment = None.
Proof.
  intros Hs H. rewrite parse_segment_fields, Hs.
  destruct H as [-> | [H | (f2 & rest & -> & H)]]; [reflexivity | ..].
  - rewrite H. now destruct (int f0).
  - rewrite H. now destruct (int f0), (int f1).
Qed.

(** A result is made of the values read, within the accepted ranges. *)
Lemma parse_segment_some default_time segment i p t :
  parse_segment default_time segment = Some (i, p, t) ->
  exists f0 f1 more,
    split "," segment = f0 :: f1 :: more /\
    int f0 = Some i /\ int f1 = Some p /\
    match more with [] => Some default_time | f2 :: _ => int f2 end = Some t /\
    0 <= i <= 999 /\ 0 < p /\ 0 < t.
Proof.
  rewrite parse_segment_fields.
  destruct (split "," segment) as [|f0 [|f1 more]]; try discriminate.
  destruct (int f0) as [i'|] eqn:E0; [|discriminate].
  destruct (int f1) as [p'|] eqn:E1; [|discriminate].
  destruct (match more with [] => _ | _ => _ end) as [t'|] eqn:Ht; [|discriminate].
  destruct (Z.ltb_spec i' 0); [discriminate|].
  destruct (Z.ltb_spec 999 i'); [discriminate|].
  destruct (Z.leb_spec p' 0); [discriminate|].
  destruct (Z.leb_spec t' 0); [discriminate|].
  cbn. intros [= <- <- <-].
  exists f0, f1, more. repeat split; try reflexivity; try assumption; lia.
Qed.

Example parse_segment_three_fields :
  parse_segment 1000 "0,1640,1000" = Some (0, 1640, 1000).
Proof. reflexivity. Qed.

Example parse_segment_default_substituted :
  parse_segment 1000 "0,1640" = Some (0, 1640, 1000).
Proof. reflexivity. Qed.

Example parse_segment_zero_duration :
  parse_segment 1000 "0,1640,0" = None.
Proof. reflexivity. Qed.

(** C9.  Fields after the third are not looked at: a segment of at least
    three fields that is accepted stays accepted, with the same result,
    when any text is appended after a further comma. *)
Theorem parse_segment_ignores_extra_fields default_time segment extra i p t :
  (3 <= List.length (split "," segment))%nat ->
  parse_segment default_time segment = Some (i, p, t) ->
  parse_segment default_time (segment ++ "," ++ extra) = Some (i, p, t).
Proof.
  intros Hlen Hok.
  rewrite parse_segment_fields in *.
  change (segment ++ "," ++ extra) with (segment ++ String "," extra).
  rewrite split_app.
  destruct (split "," segment) as [|f0 [|f1 [|f2 more]]];
    cbn in Hlen; try lia.
  exact Hok.
Qed.

Lemma parse_segment_ignores_extra_fields_witness :
  (3 <= List.length (split "," "0,1500,1000"))%nat /\
  parse_segment 1000 "0,1500,1000" = Some (0, 1500, 1000) /\
  parse_segment 1000 "0,1500,1000,junk" = Some (0, 1500, 1000).
Proof.
  assert (H3 : (3 <= List.length (split "," "0,1500,1000"))%nat) by (vm_compute; lia).
  assert (Hok : parse_segment 1000 "0,1500,1000" = Some (0, 1500, 1000)) by reflexivity.
  split; [exact H3 | split; [exact Hok|]].
  exact (parse_segment_ignores_extra_fields 1000 "0,1500,1000" "junk" 0 1500 1000 H3 Hok).
Defined.

End CommandParser.

(* ===================================================================== *)
(** ** Passthrough: [send_passthrough] *)
(* ===================================================================== *)

Section Passthrough.
Import Py PyFacts.

Lemma upper_char_is_C c :
  Ascii.eqb (upper_char c) "C" = Ascii.eqb c "C" || Ascii.eqb c "c".
Proof. by_char c. Qed.

Lemma upper_char_is_hash c : Ascii.eqb (upper_char c) "#" = Ascii.eqb c "#".
Proof. by_char c. Qed.

Lemma ascii_dec_eqb (a b : ascii) :
  (if ascii_dec a b then true else false) = Ascii.eqb b a.
Proof.
  destruct (ascii_dec a b) as [->|Hne].
  - now rewrite Ascii.eqb_refl.
  - symmetry. apply Ascii.eqb_neq. congruence.
Qed.

Lemma prefix_2 a b s :
  startswith (String a (String b "")) s
  = match s with
    | String x (String y _) => Ascii.eqb x a && Ascii.eqb y b
    | _ => false
    end.
Proof.
  unfold startswith. destruct s as [|x [|y r]]; cbn.
  - reflexivity.
  - destruct (ascii_dec a x); reflexivity.
  - rewrite <- (ascii_dec_eqb a x), <- (ascii_dec_eqb b y).
    destruct (ascii_dec a x), (ascii_dec b y), r; reflexivity.
Qed.

(** The test of the script on the upper-cased text is the test on the
    first two characters. *)
Lemma upper_starts_C_hash s : startswith "C#" (upper s) = is_C_hash s.
Proof.
  rewrite prefix_2. destruct s as [|c [|h r]]; cbn [upper is_C_hash]; try reflexivity.
  now rewrite upper_char_is_C, upper_char_is_hash.
Qed.

Lemma starts_ct s : startswith "ct" s = is_ct s.
Proof. apply prefix_2. Qed.

Lemma is_C_hash_iff s : is_C_hash s = true <-> starts_with_C_hash s.
Proof.
  unfold starts_with_C_hash. split.
  - destruct s as [|c [|h r]]; cbn; try discriminate.
    intros H. apply andb_true_iff in H as [Hc Hh].
    apply Ascii.eqb_eq in Hh as ->. exists c, r. split; [reflexivity|].
    apply orb_true_iff in Hc as [Hc|Hc]; apply Ascii.eqb_eq in Hc; auto.
  - intros (c & rest & -> & [-> | ->]); reflexivity.
Qed.

Lemma is_ct_iff s : is_ct s = true <-> exists rest, s = "ct" ++ rest.
Proof.
  split.
  - destruct s as [|c [|t r]]; cbn; try discriminate.
    intros H. apply andb_true_iff in H as [Hc Ht].
    apply Ascii.eqb_eq in Hc as ->. apply Ascii.eqb_eq in Ht as ->.
    now exists r.
  - intros (rest & ->). reflexivity.
Qed.

Lemma endswith_bang_iff s : endswith "!" s = true <-> ends_with_bang s.
Proof.
  unfold ends_with_bang. split.
  - induction s as [|c r IH]; cbn [endswith].
    + cbn. discriminate.
    + destruct (String.eqb_spec (String c r) "!") as [E|_].
      * intros _. exists "". exact E.
      * intros H. destruct (IH H) as (body & ->).
        now exists (String c body).
  - intros (body & ->). induction body as [|c b IH]; [reflexivity|].
    cbn [append endswith]. rewrite IH. now destruct (String.eqb _ _).
Qed.

(** Dropping the first character of a well-formed command leaves a text
    from "#" to "!". *)
Lemma payload_shape command :
  starts_with_C_hash command -> ends_with_bang command ->
  exists c payload,
    command = String c payload /\ slice_from 1 command = payload /\
    startswith "#" payload = true /\ ends_with_bang payload.
Proof.
  intros (c & rest & -> & _) (body & Hb).
  exists c, (String "#" rest).
  split; [reflexivity | split; [reflexivity | split]].
  - now destruct rest.
  - destruct body as [|c' body']; [discriminate Hb|].
    cbn in Hb. injection Hb as Hc Hb'. now exists body'.
Qed.

(** The loop that collects the reply only adds reads to the trace. *)
Lemma drain_trace polls : forall response tr,
  exists reads,
    snd (fst (drain polls response tr)) = (tr ++ reads)%list /\
    Forall (fun e => exists bytes, e = SerialRead bytes) reads.
Proof.
  induction polls as [|buffer later IH]; intros response tr; cbn [drain].
  - exists []. cbn. now rewrite app_nil_r.
  - destruct (is_empty buffer).
    + exists []. cbn. now rewrite app_nil_r.
    + destruct (IH (response ++ decode_ascii_ignore buffer)
                   (tr ++ [SerialRead buffer])%list) as (reads & -> & Hr).
      exists (SerialRead buffer :: reads). split.
      * now rewrite <- List.app_assoc.
      * constructor; [now exists buffer | exact Hr].
Qed.

(** What the exchange does: nothing at all when the payload cannot be
    encoded; otherwise one write of the payload, the settle delay, the
    reads, and a report that starts with "C# sent -> ". *)
Lemma passthrough_exchange_run payload s :
  passthrough_exchange payload s =
  if all_chars is_ascii payload then
    let '(response, tr, later) :=
      drain (rx s) "" (trace s ++ [SerialWrite payload; Sleep 50]) in
    Ok ("C# sent -> " ++ payload
        ++ (if is_empty response then "" else newline ++ "Response: " ++ response))
       (mkState (default_time_ms s) tr later)
  else Raise UnicodeEncodeError s.
Proof.
  unfold passthrough_exchange, bind, encode_ascii.
  destruct (all_chars is_ascii payload); [|reflexivity].
  unfold ret, serial_write, sleep_ms, emit, read_response.
  cbn [rx trace default_time_ms].
  rewrite <- List.app_assoc. cbn [List.app].
  destruct (drain _ _ _) as [[response tr] later]. reflexivity.
Qed.

Lemma passthrough_exchange_not_invalid payload s s' :
  passthrough_exchange payload s <> Ok INVALID_PASSTHROUGH s'.
Proof.
  rewrite passthrough_exchange_run.
  destruct (all_chars is_ascii payload); [|discriminate].
  destruct (drain _ _ _) as [[response tr] later]. discriminate.
Qed.

Lemma send_passthrough_cases command s :
  send_passthrough command s =
  if is_C_hash command && endswith "!" command
  then passthrough_exchange (slice_from 1 command) s
  else Ok INVALID_PASSTHROUGH s.
Proof.
  unfold send_passthrough. rewrite upper_starts_C_hash.
  destruct (is_C_hash command), (endswith "!" command); reflexivity.
Qed.

Lemma well_formed_iff command :
  is_C_hash command && endswith "!" command = true
  <-> starts_with_C_hash command /\ ends_with_bang command.
Proof. now rewrite andb_true_iff, is_C_hash_iff, endswith_bang_iff. Qed.

(** C4.  The validation of [send_passthrough] lets a command through if
    and only if it starts with "C#" or "c#" and ends with "!".  What then
    goes on to the port is the command without its first character: it
    starts with "#" and ends with "!".  Any other command gets the error
    text, and only such a command does.  The three examples of the
    specification follow. *)
Theorem send_passthrough_validation :
  (forall command s,
      (starts_with_C_hash command /\ ends_with_bang command /\
       exists c payload,
         command = String c payload /\
         startswith "#" payload = true /\ ends_with_bang payload /\
         send_passthrough command s = passthrough_exchange payload s /\
         forall s', send_passthrough command s <> Ok INVALID_PASSTHROUGH s')
      \/
      (~ (starts_with_C_hash command /\ ends_with_bang command) /\
       send_passthrough command s = Ok INVALID_PASSTHROUGH s))
  /\ send_passthrough "c#000prad1500!" (initial_state [])
     = Ok "C# sent -> #000prad1500!"
          (mkState 1000 [SerialWrite "#000prad1500!"; Sleep 50] [])
  /\ send_passthrough "X#000!" (initial_state [])
     = Ok INVALID_PASSTHROUGH (initial_state [])
  /\ send_passthrough "C#000" (initial_state [])
     = Ok INVALID_PASSTHROUGH (initial_state []).
Proof.
  split; [|repeat split; reflexivity].
  intros command s. rewrite send_passthrough_cases.
  destruct (is_C_hash command && endswith "!" command) eqn:Hv.
  - left. apply well_formed_iff in Hv as [Hs He].
    split; [exact Hs | split; [exact He|]].
    destruct (payload_shape command Hs He) as (c & payload & Hc & Hp & Hh & Hb).
    exists c, payload. rewrite Hp.
    repeat split; try assumption.
    intros s'. apply passthrough_exchange_not_invalid.
  - right. split; [|reflexivity].
    intros H. apply well_formed_iff in H. congruence.
Qed.

(** C10.  A command that fails the validation is answered with the error
    text and nothing else happens: the state that comes back is the state
    that went in, so no byte was written, no delay taken, nothing read
    from the port, and the default duration is what it was. *)
Theorem send_passthrough_invalid_untouched command s :
  ~ (starts_with_C_hash command /\ ends_with_bang command) ->
  send_passthrough command s = Ok INVALID_PASSTHROUGH s.
Proof.
  intros Hbad. rewrite send_passthrough_cases.
  destruct (is_C_hash command && endswith "!" command) eqn:Hv; [|reflexivity].
  apply well_formed_iff in Hv. contradiction.
Qed.

Lemma send_passthrough_invalid_untouched_witness :
  ~ (starts_with_C_hash "C#000" /\ ends_with_bang "C#000") /\
  send_passthrough "C#000" (mkState 750 [Print "earlier"] ["pending"])
  = Ok INVALID_PASSTHROUGH (mkState 750 [Print "earlier"] ["pending"]).
Proof.
  assert (Hbad : ~ (starts_with_C_hash "C#000" /\ ends_with_bang "C#000")).
  { intros H. apply well_formed_iff in H. vm_compute in H. discriminate H. }
  split; [exact Hbad|].
  exact (send_passthrough_invalid_untouched
           "C#000" (mkState 750 [Print "earlier"] ["pending"]) Hbad).
Defined.

(** By contrast a well-formed command does reach the port. *)
Lemma send_passthrough_valid_writes command s :
  starts_with_C_hash command -> ends_with_bang command ->
  all_chars is_ascii command = true ->
  exists report s' reads,
    send_passthrough command s = Ok report s' /\
    trace s' = (trace s ++ SerialWrite (slice_from 1 command) :: Sleep 50 :: reads)%list.
Proof.
  intros Hs He Ha. rewrite send_passthrough_cases.
  assert (is_C_hash command && endswith "!" command = true) as ->
      by now apply well_formed_iff.
  rewrite passthrough_exchange_run.
  assert (all_chars is_ascii (slice_from 1 command) = true) as ->.
  { destruct command as [|c r]; [reflexivity|].
    cbn in Ha. apply andb_true_iff in Ha as [_ Ha]. exact Ha. }
  destruct (drain_trace (rx s) ""
              (trace s ++ [SerialWrite (slice_from 1 command); Sleep 50])%list)
    as (reads & Htr & _).
  destruct (drain _ _ _) as [[response tr] later]. cbn in Htr. subst tr.
  eexists _, _, reads. split; [reflexivity|].
  cbn. now rewrite <- List.app_assoc.
Qed.

End Passthrough.

(* ===================================================================== *)
(** ** The line dispatcher: [process_command] *)
(* ===================================================================== *)

Section Dispatcher.
Import Py PyFacts.

(** The tests of the script select the branch the classification names;
    the early return on an empty line does what the segment branch does
    on it, nothing. *)
Lemma process_command_dispatch line s :
  process_command line s =
  match classify (strip line) with
  | PassthroughLine => passthrough_branch (strip line) s
  | SetDefaultLine => ct_branch (strip line) s
  | SegmentsLine => segments_branch (strip line) s
  end.
Proof.
  unfold process_command, classify.
  rewrite upper_starts_C_hash, starts_ct.
  destruct (strip line) as [|c r]; [reflexivity|].
  cbn [is_empty]. destruct (is_C_hash (String c r)); [reflexivity|].
  destruct (is_ct (String c r)); reflexivity.
Qed.

(** C7.  Every line goes to exactly one of three handlers, chosen on the
    trimmed line in this order: the passthrough handler when it starts
    with "C#" in either case; otherwise the set-default handler when it
    starts with the lower-case letters "ct"; otherwise the handler that
    splits it into move segments. *)
Theorem process_command_classifies line s :
  process_command line s =
  match classify (strip line) with
  | PassthroughLine => passthrough_branch (strip line) s
  | SetDefaultLine => ct_branch (strip line) s
  | SegmentsLine => segments_branch (strip line) s
  end.
Proof. apply process_command_dispatch. Qed.

(** The first two tests cannot both hold, so the order between them
    decides nothing. *)
Lemma C_hash_excludes_ct s : is_C_hash s = true -> is_ct s = false.
Proof.
  destruct s as [|c [|h r]]; cbn; try reflexivity.
  intros H. apply andb_true_iff in H as [_ Hh].
  apply Ascii.eqb_eq in Hh as ->. apply andb_false_r.
Qed.

(** What each handler leaves alone. *)
Lemma passthrough_branch_keeps_default line s :
  match passthrough_branch line s with
  | Ok _ s' | Raise _ s' => default_time_ms s' = default_time_ms s
  end.
Proof.
  unfold passthrough_branch, bind. rewrite send_passthrough_cases.
  destruct (is_C_hash line && endswith "!" line); [|reflexivity].
  rewrite passthrough_exchange_run.
  destruct (all_chars is_ascii _); [|reflexivity].
  destruct (drain _ _ _) as [[response tr] later]. reflexivity.
Qed.

Lemma ct_branch_prints_once line s :
  exists d text,
    ct_branch line s = Ok tt (mkState d (trace s ++ [Print text]) (rx s)).
Proof.
  unfold ct_branch.
  destruct (int (slice_from 2 line)) as [v|]; [destruct (v >? 0)|];
    [unfold bind, set_default, get_default; cbn [default_time_ms];
     destruct (str v) | ..];
    eexists _, _; reflexivity.
Qed.

(** What the parser accepts can be formatted, provided the default
    duration can. *)
Lemma parse_segment_in_limit default_time segment i p t :
  parse_segment default_time segment = Some (i, p, t) ->
  default_time < digit_bound ->
  - digit_bound < i /\ t < digit_bound.
Proof.
  intros H Hd.
  destruct (parse_segment_some _ _ _ _ _ H)
    as (f0 & f1 & more & _ & _ & _ & Ht & Hi & _ & _).
  pose proof digit_bound_large. split; [lia|].
  destruct more as [|f2 rest].
  - injection Ht as <-. exact Hd.
  - apply int_in_digit_limit, in_digit_limit_iff in Ht. lia.
Qed.

(** One turn of the segment loop, when the default duration can be
    formatted. *)
Lemma process_segment_run segment s :
  default_time_ms s < digit_bound ->
  process_segment segment s =
  Ok tt (add_events s
           (if is_empty (strip segment) then []
            else item_events (item_of_segment (default_time_ms s) (strip segment)))).
Proof.
  intros Hd. unfold process_segment.
  destruct (is_empty (strip segment)).
  - now rewrite add_events_nil.
  - unfold bind, get_default, item_of_segment.
    destruct (parse_segment (default_time_ms s) (strip segment))
      as [[[i p] t]|] eqn:E; [|reflexivity].
    destruct (parse_segment_in_limit _ _ _ _ _ E Hd) as [Hi Ht].
    rewrite send_servo_move_run by assumption. unfold print. rewrite emit_run.
    now rewrite add_events_app.
Qed.

(** One turn of the segment loop in any state: events are added, or
    [ValueError] escapes before anything is done. *)
Lemma process_segment_cases segment s :
  (exists evs, process_segment segment s = Ok tt (add_events s evs)) \/
  process_segment segment s = Raise ValueError s.
Proof.
  unfold process_segment.
  destruct (is_empty (strip segment)).
  - left. exists []. now rewrite add_events_nil.
  - unfold bind, get_default.
    destruct (parse_segment (default_time_ms s) (strip segment))
      as [[[i p] t]|]; [|left; now eexists].
    rewrite send_servo_move_cases.
    destruct (in_digit_limit (Z.min 999 i) && in_digit_limit (Z.max 1 t));
      [|now right].
    left. unfold print. rewrite emit_run, add_events_app. now eexists.
Qed.

(** The whole loop: the items of the non-empty trimmed segments, in
    order, each decided on its own with the same default duration. *)
Lemma for_each_segment_run segments : forall s,
  default_time_ms s < digit_bound ->
  for_each segments process_segment s =
  Ok tt (add_events s
           (flat_map (fun segment =>
                        item_events (item_of_segment (default_time_ms s) segment))
                     (filter (fun segment => negb (is_empty segment))
                             (map strip segments)))).
Proof.
  induction segments as [|segment rest IH]; intros s Hd; cbn [for_each].
  - cbn. now rewrite add_events_nil.
  - unfold bind. rewrite process_segment_run, IH by exact Hd.
    cbn [map filter default_time_ms add_events].
    rewrite add_events_app.
    destruct (is_empty (strip segment)); reflexivity.
Qed.

Lemma segments_branch_run line s :
  default_time_ms s < digit_bound ->
  segments_branch line s =
  Ok tt (add_events s
           (flat_map (fun segment =>
                        item_events (item_of_segment (default_time_ms s) segment))
                     (spec_segments line))).
Proof. apply for_each_segment_run. Qed.

(** C5.  On a line that is neither a passthrough nor a "ct" line, the
    line is split on ";", the segments are trimmed and the empty ones
    dropped; each remaining segment, in the order of the line, gives
    either a move (its frame written and reported) or a skip message,
    decided by [parse_segment] on that segment alone.  The command
    returns normally whatever the segments are.  The state is one whose
    default duration can be formatted (below [10^4300]), as it is at the
    start of a session and after every command
    ([initial_default_in_limit], [process_command_default_positive]). *)
Theorem process_command_segment_items line s :
  classify (strip line) = SegmentsLine ->
  default_time_ms s < digit_bound ->
  process_command line s =
  Ok tt (add_events s
           (flat_map (fun segment =>
                        item_events (item_of_segment (default_time_ms s) segment))
                     (spec_segments (strip line)))).
Proof.
  intros Hk Hd. rewrite process_command_dispatch, Hk.
  now apply segments_branch_run.
Qed.

Lemma process_command_segment_items_witness :
  classify (strip "0,bad;1,2000") = SegmentsLine /\
  default_time_ms (initial_state []) < digit_bound /\
  process_command "0,bad;1,2000" (initial_state [])
  = Ok tt (mkState 1000
             [Print "Skip invalid segment: 0,bad";
              SerialWrite "#001P2000T1000!";
              Print "Sent -> #001P2000T1000!"] []).
Proof.
  assert (Hd : default_time_ms (initial_state []) < digit_bound)
    by (pose proof digit_bound_large; change (1000 < digit_bound); lia).
  split; [reflexivity | split; [exact Hd|]].
  exact (process_command_segment_items "0,bad;1,2000" (initial_state []) eq_refl Hd).
Defined.

Example two_moves_in_order :
  process_command "0,1500;1,2000" (initial_state [])
  = Ok tt (mkState 1000
             [SerialWrite "#000P1500T1000!"; Print "Sent -> #000P1500T1000!";
              SerialWrite "#001P2000T1000!"; Print "Sent -> #001P2000T1000!"] []).
Proof. reflexivity. Qed.

(** A loop over two lists one after the other is the two loops in
    sequence, also when one of them raises. *)
Lemma for_each_app {A} (xs ys : list A) (body : A -> M unit) s :
  for_each (xs ++ ys) body s = (for_each xs body ;;; for_each ys body) s.
Proof.
  revert s. induction xs as [|x rest IH]; intros s; cbn [List.app for_each].
  - reflexivity.
  - unfold bind in *. destruct (body x s) as [[] s1|e s1]; [apply IH | reflexivity].
Qed.

(** Segments of a line are independent: what a line made of two parts
    joined by ";" does is what the first part does followed by what the
    second does. *)
Lemma for_each_segment_join a b s :
  for_each (split ";" (a ++ ";" ++ b)) process_segment s
  = (for_each (split ";" a) process_segment ;;;
     for_each (split ";" b) process_segment) s.
Proof.
  change (a ++ ";" ++ b) with (a ++ String ";" b). rewrite split_app.
  apply for_each_app.
Qed.

Lemma initial_default_in_limit replies :
  default_time_ms (initial_state replies) < digit_bound.
Proof. pose proof digit_bound_large. change (1000 < digit_bound). lia. Qed.

(** *** The default duration *)

Lemma ct_line_run line rest s :
  strip line = "ct" ++ rest ->
  process_command line s =
  Ok tt (match int rest with
         | Some v =>
             if 0 <? v
             then mkState v (trace s ++ [Print ("Default time set to: "
                                                ++ str_text v ++ " ms")]) (rx s)
             else add_events s [Print INVALID_CT]
         | None => add_events s [Print INVALID_CT]
         end).
Proof.
  intros Hl. rewrite process_command_dispatch, Hl.
  change (classify ("ct" ++ rest)) with SetDefaultLine. cbv iota.
  unfold ct_branch. change (slice_from 2 ("ct" ++ rest)) with rest.
  destruct (int rest) as [v|] eqn:E; [|reflexivity].
  rewrite Z.gtb_ltb. destruct (0 <? v); [|reflexivity].
  unfold bind, set_default, get_default. cbn [default_time_ms].
  unfold str. rewrite (format_0d_some 0 v (int_in_digit_limit _ _ E)).
  reflexivity.
Qed.

(** C6.  A session starts with the default duration 1000.  A line that,
    once trimmed, is "ct" followed by [rest] returns normally and
    - when [rest] reads as an integer [v > 0]: the default becomes [v]
      (one message reports it), and from then on a segment of two fields
      is accepted with [v] as its duration, so that the line "2,1800"
      sends the frame of duration [v] ([str_text] and [frame_text] are
      the texts that [str] and [move_frame] produce for [v]);
    - otherwise ([rest] is no integer, or is zero or negative): the
      default is what it was and one diagnostic is printed.
    Nothing is written to or read from the port either way. *)
Theorem ct_command_sets_default line rest s :
  strip line = "ct" ++ rest ->
  (forall replies, default_time_ms (initial_state replies) = 1000) /\
  exists s',
    process_command line s = Ok tt s' /\ rx s' = rx s /\
    match int rest with
    | Some v =>
        if 0 <? v then
          default_time_ms s' = v /\
          trace s' = (trace s ++ [Print ("Default time set to: "
                                         ++ str_text v ++ " ms")])%list /\
          (forall segment f0 f1 i p,
              split "," segment = [f0; f1] ->
              int f0 = Some i -> int f1 = Some p ->
              0 <= i <= 999 -> 0 < p ->
              parse_segment (default_time_ms s') segment = Some (i, p, v)) /\
          process_command "2,1800" s'
          = Ok tt (add_events s' [SerialWrite (frame_text 2 1800 v);
                                  Print ("Sent -> " ++ frame_text 2 1800 v)]) /\
          Py.str v = Some (str_text v) /\
          move_frame 2 1800 v = Some (frame_text 2 1800 v)
        else
          default_time_ms s' = default_time_ms s /\
          trace s' = (trace s ++ [Print INVALID_CT])%list
    | None =>
        default_time_ms s' = default_time_ms s /\
        trace s' = (trace s ++ [Print INVALID_CT])%list
    end.
Proof.
  intros Hl. split; [reflexivity|].
  rewrite (ct_line_run line rest s Hl).
  eexists. split; [reflexivity|].
  destruct (int rest) as [v|] eqn:E; [|repeat split].
  destruct (Z.ltb_spec 0 v); [|repeat split].
  pose proof (int_in_digit_limit _ _ E) as Hlim.
  assert (v < digit_bound) as Hv by (apply in_digit_limit_iff in Hlim; lia).
  apply int_in_digit_limit in E.
  do 3 (split; [reflexivity|]). split; [|split; [|split]].
  - intros segment f0 f1 i p Hs H0 H1 Hi Hp. cbn [default_time_ms].
    now apply (parse_segment_accepts v segment f0 f1 [] i p v).
  - rewrite process_command_dispatch.
    change (strip "2,1800") with "2,1800".
    change (classify "2,1800") with SegmentsLine. cbv iota.
    rewrite segments_branch_run by exact Hv.
    change (spec_segments "2,1800") with ["2,1800"].
    cbn [flat_map default_time_ms]. unfold item_of_segment.
    rewrite (parse_segment_accepts v "2,1800" "2" "1800" [] 2 1800 v)
      by (reflexivity || lia).
    cbn [item_events]. now rewrite app_nil_r.
  - now apply format_0d_some.
  - apply move_frame_some; [pose proof digit_bound_large; lia | exact Hv].
Qed.

Lemma ct_command_sets_default_witness :
  strip "ct500" = "ct" ++ "500" /\
  exists s',
    process_command "ct500" (initial_state []) = Ok tt s' /\
    default_time_ms s' = 500 /\
    parse_segment (default_time_ms s') "2,1800" = Some (2, 1800, 500).
Proof.
  split; [reflexivity|].
  destruct (ct_command_sets_default "ct500" "500" (initial_state []) eq_refl)
    as (_ & s' & Hrun & _ & Hd & _ & Hseg & _).
  exists s'. split; [exact Hrun | split; [exact Hd|]].
  apply (Hseg "2,1800" "2" "1800" 2 1800); try reflexivity; lia.
Defined.

Example ct_then_two_fields :
  (process_command "ct500" ;;; process_command "2,1800") (initial_state [])
  = Ok tt (mkState 500
             [Print "Default time set to: 500 ms";
              SerialWrite "#002P1800T0500!"; Print "Sent -> #002P1800T0500!"] []).
Proof. reflexivity. Qed.

Example ct_negative_keeps_default :
  process_command "ct-5" (initial_state [])
  = Ok tt (mkState 1000 [Print INVALID_CT] []).
Proof. reflexivity. Qed.

Example ct_zero_keeps_default :
  process_command "ct0" (initial_state [])
  = Ok tt (mkState 1000 [Print INVALID_CT] []).
Proof. reflexivity. Qed.

Example ct_alone_keeps_default :
  process_command "ct" (initial_state [])
  = Ok tt (mkState 1000 [Print INVALID_CT] []).
Proof. reflexivity. Qed.

(** The default duration stays positive, and short enough to be
    formatted, throughout a session. *)
Lemma process_command_default_positive line s :
  0 < default_time_ms s < digit_bound ->
  match process_command line s with
  | Ok _ s' | Raise _ s' => 0 < default_time_ms s' < digit_bound
  end.
Proof.
  intros Hpos. rewrite process_command_dispatch.
  destruct (classify (strip line)).
  - pose proof (passthrough_branch_keeps_default (strip line) s) as H.
    destruct (passthrough_branch (strip line) s); now rewrite H.
  - unfold ct_branch.
    destruct (int (slice_from 2 (strip line))) as [v|] eqn:E; [|exact Hpos].
    destruct (Z.gtb_spec v 0); [|exact Hpos].
    apply int_in_digit_limit, in_digit_limit_iff in E.
    unfold bind, set_default, get_default. cbn [default_time_ms].
    destruct (str v); cbn [print emit default_time_ms]; lia.
  - rewrite segments_branch_run by lia. exact Hpos.
Qed.

(** *** From the input line to the port *)

Lemma str_chars x : all_chars numeral_char (str_text x) = true.
Proof. apply format_0d_chars. Qed.

(** The line "5,<pulse>,1" and its three fields. *)
Lemma pulse_line_fields pulse :
  split "," ("5," ++ str_text pulse ++ ",1") = ["5"; str_text pulse; "1"].
Proof.
  change ("5," ++ str_text pulse ++ ",1")
    with ("5" ++ String "," (str_text pulse ++ String "," "1")).
  rewrite !split_app.
  assert (split "," (str_text pulse) = [str_text pulse]) as ->.
  { apply split_single.
    eapply all_chars_impl; [apply numeral_char_not_comma | apply str_chars]. }
  reflexivity.
Qed.

Lemma pulse_line_plain pulse (p : ascii -> bool) :
  (forall c, numeral_char c = true -> p c = true) ->
  p ","%char = true ->
  all_chars p ("5," ++ str_text pulse ++ ",1") = true.
Proof.
  intros Hp Hcomma.
  change ("5," ++ str_text pulse ++ ",1")
    with (String "5" (String "," (str_text pulse ++ ",1"))).
  cbn [all_chars]. rewrite all_chars_app, (Hp "5"%char eq_refl), Hcomma.
  rewrite (all_chars_impl _ _ _ Hp (str_chars pulse)).
  cbn [all_chars andb]. now rewrite Hcomma, (Hp "1"%char eq_refl).
Qed.

Lemma pulse_line_trimmed pulse :
  strip ("5," ++ str_text pulse ++ ",1") = "5," ++ str_text pulse ++ ",1".
Proof.
  apply strip_by_id. apply pulse_line_plain; [|reflexivity].
  apply numeral_char_not_space.
Qed.

Lemma pulse_line_one_segment pulse :
  spec_segments ("5," ++ str_text pulse ++ ",1") = ["5," ++ str_text pulse ++ ",1"].
Proof.
  unfold spec_segments.
  assert (split ";" ("5," ++ str_text pulse ++ ",1") = ["5," ++ str_text pulse ++ ",1"]) as ->.
  { apply split_single. apply pulse_line_plain; [|reflexivity].
    apply numeral_char_not_semicolon. }
  cbn [map]. fold strip. rewrite pulse_line_trimmed. reflexivity.
Qed.

Lemma pulse_line_parsed default_time pulse :
  0 < pulse -> in_digit_limit pulse = true ->
  parse_segment default_time ("5," ++ str_text pulse ++ ",1") = Some (5, pulse, 1).
Proof.
  intros Hp Hl.
  apply (parse_segment_accepts default_time _ "5" (str_text pulse) ["1"]);
    try reflexivity; try lia.
  - apply pulse_line_fields.
  - now apply int_str.
Qed.

Lemma move_frame_pulse_clamped servo_id pulse time_ms :
  2500 <= pulse ->
  frame_text servo_id pulse time_ms = frame_text servo_id 2500 time_ms.
Proof.
  intros Hp. unfold frame_text, PULSE_MIN_US, PULSE_MAX_US.
  now rewrite (Z.min_l 2500 pulse), (Z.min_l 2500 2500) by lia.
Qed.

(** C8.  End to end, for the line "5,<pulse>,1" with any pulse above
    2500 written out in decimal (the specification's example is 9999;
    [str] writes out the integers of at most 4300 digits): the parser
    accepts the segment with the pulse as typed, so nothing bounds it from
    above before the encoder; the encoder brings it to 2500; and the one
    frame written to the port is "#005P2500T0001!". *)
Theorem pulse_clamp_end_to_end pulse text replies :
  2500 < pulse -> Py.str pulse = Some text ->
  parse_segment 1000 ("5," ++ text ++ ",1") = Some (5, pulse, 1) /\
  process_command ("5," ++ text ++ ",1") (initial_state replies)
  = Ok tt (mkState 1000
             [SerialWrite "#005P2500T0001!"; Print "Sent -> #005P2500T0001!"]
             replies).
Proof.
  intros Hp Htext. apply str_inv in Htext as [Hl ->].
  split; [apply pulse_line_parsed; [lia | exact Hl]|].
  rewrite process_command_dispatch, pulse_line_trimmed.
  change (classify ("5," ++ str_text pulse ++ ",1")) with SegmentsLine. cbv iota.
  rewrite segments_branch_run by apply initial_default_in_limit.
  rewrite pulse_line_one_segment.
  cbn [flat_map]. unfold item_of_segment.
  cbn [default_time_ms initial_state].
  rewrite pulse_line_parsed by (lia || exact Hl).
  cbn [item_events]. rewrite move_frame_pulse_clamped by lia.
  reflexivity.
Qed.

Lemma pulse_clamp_end_to_end_witness :
  2500 < 9999 /\ Py.str 9999 = Some "9999" /\
  parse_segment 1000 "5,9999,1" = Some (5, 9999, 1) /\
  process_command "5,9999,1" (initial_state [])
  = Ok tt (mkState 1000
             [SerialWrite "#005P2500T0001!"; Print "Sent -> #005P2500T0001!"]
             []).
Proof.
  assert (H : 2500 < 9999) by reflexivity.
  assert (Ht : Py.str 9999 = Some "9999") by reflexivity.
  split; [exact H | split; [exact Ht|]].
  exact (pulse_clamp_end_to_end 9999 "9999" [] H Ht).
Defined.

End Dispatcher.

(* ===================================================================== *)
(** ** Further properties of the frame codec *)
(* ===================================================================== *)

Section FrameCodecMore.
Import Py PyFacts.

Lemma length_format_0d_neg w x :
  x < 0 ->
  String.length (format_0d_text w x)
  = S (Nat.max (w - 1) (String.length (str_N (Z.abs_N x)))).
Proof.
  intros Hx. unfold format_0d_text.
  assert ((x <? 0) = true) as -> by now apply Z.ltb_lt.
  cbn [String.length]. rewrite length_app, length_zeros. lia.
Qed.

(** Clamping twice is clamping once. *)
Lemma move_frame_clamp_idem servo_id pulse_us time_ms :
  frame_text (spec_clamp_id servo_id) (spec_clamp_pulse pulse_us)
             (spec_floor_duration time_ms)
  = frame_text servo_id pulse_us time_ms.
Proof.
  rewrite <- min_clamp, <- max_min_clamp, <- max_floor.
  unfold frame_text, PULSE_MIN_US, PULSE_MAX_US.
  rewrite (Z.min_r 999 (Z.min 999 servo_id)) by lia.
  rewrite (Z.max_r 1 (Z.max 1 time_ms)) by lia.
  rewrite (Z.min_r 2500 (Z.max 500 (Z.min 2500 pulse_us))) by lia.
  rewrite (Z.max_r 500 (Z.max 500 (Z.min 2500 pulse_us))) by lia.
  reflexivity.
Qed.

Lemma clamps_in_range servo_id pulse_us time_ms :
  0 <= servo_id -> time_ms <= 9999 ->
  0 <= spec_clamp_id servo_id <= 999 /\
  500 <= spec_clamp_pulse pulse_us <= 2500 /\
  1 <= spec_floor_duration time_ms <= 9999.
Proof.
  intros Hid Ht.
  rewrite <- min_clamp, <- max_min_clamp, <- max_floor.
  unfold PULSE_MIN_US, PULSE_MAX_US. lia.
Qed.

(** The fields of the frame text are the clamped inputs. *)
Lemma move_frame_decode servo_id pulse_us time_ms :
  0 <= servo_id -> time_ms <= 9999 ->
  String.length (frame_text servo_id pulse_us time_ms) = 15%nat /\
  frame_fields (frame_text servo_id pulse_us time_ms)
  = (Some (spec_clamp_id servo_id), Some (spec_clamp_pulse pulse_us),
     Some (spec_floor_duration time_ms)).
Proof.
  intros Hid Ht.
  destruct (clamps_in_range servo_id pulse_us time_ms Hid Ht) as (Hi & Hp & Hd).
  rewrite <- move_frame_clamp_idem.
  now apply move_frame_round_trip.
Qed.

Lemma move_frame_bounded servo_id pulse_us time_ms :
  0 <= servo_id -> time_ms <= 9999 ->
  move_frame servo_id pulse_us time_ms = Some (frame_text servo_id pulse_us time_ms).
Proof.
  intros Hid Ht. pose proof digit_bound_large. apply move_frame_some; lia.
Qed.

(** X1.  Decoding after encoding is clamping: for a non-negative id and a
    duration of at most 9999, whatever the pulse, there is a frame, it has
    15 characters and its fields read back as the id lowered to 999, the
    pulse brought into 500..2500 and the duration raised to at least 1. *)
Theorem move_frame_decodes_to_clamped servo_id pulse_us time_ms :
  0 <= servo_id -> time_ms <= 9999 ->
  exists frame,
    move_frame servo_id pulse_us time_ms = Some frame /\
    String.length frame = 15%nat /\
    frame_fields frame
    = (Some (spec_clamp_id servo_id), Some (spec_clamp_pulse pulse_us),
       Some (spec_floor_duration time_ms)).
Proof.
  intros Hid Ht. exists (frame_text servo_id pulse_us time_ms).
  split; [now apply move_frame_bounded | now apply move_frame_decode].
Qed.

Lemma move_frame_decodes_to_clamped_witness :
  0 <= 1234 /\ -7 <= 9999 /\
  exists frame,
    move_frame 1234 40 (-7) = Some frame /\
    String.length frame = 15%nat /\
    frame_fields frame = (Some 999, Some 500, Some 1).
Proof.
  assert (H1 : 0 <= 1234) by lia.
  assert (H2 : -7 <= 9999) by lia.
  split; [exact H1 | split; [exact H2|]].
  exact (move_frame_decodes_to_clamped 1234 40 (-7) H1 H2).
Defined.

(** X2.  For a non-negative id there is a frame of 15 characters exactly
    when the duration is at most 9999. *)
Theorem move_frame_length_15_iff servo_id pulse_us time_ms :
  0 <= servo_id ->
  ((exists frame, move_frame servo_id pulse_us time_ms = Some frame /\
                  String.length frame = 15%nat)
   <-> time_ms <= 9999).
Proof.
  intros Hid. split.
  - intros (frame & Hf & Hlen).
    apply move_frame_inv in Hf as (-> & _ & _).
    destruct (Z.le_gt_cases time_ms 9999) as [H|H]; [exact H|].
    pose proof (move_frame_duration_overflow servo_id pulse_us time_ms Hid
                  ltac:(lia)). lia.
  - intros Ht. exists (frame_text servo_id pulse_us time_ms).
    split; [now apply move_frame_bounded | now apply move_frame_decode].
Qed.

Lemma move_frame_length_15_iff_witness :
  0 <= 7 /\
  ((exists frame, move_frame 7 1500 9999 = Some frame /\
                  String.length frame = 15%nat) <-> 9999 <= 9999) /\
  ((exists frame, move_frame 7 1500 10000 = Some frame /\
                  String.length frame = 15%nat) <-> 10000 <= 9999).
Proof.
  assert (H : 0 <= 7) by lia.
  split; [exact H | split].
  - exact (move_frame_length_15_iff 7 1500 9999 H).
  - exact (move_frame_length_15_iff 7 1500 10000 H).
Defined.

(** X3.  Nothing bounds the id from below: for a negative id (of at most
    4300 digits, with a duration that can be formatted) there is a frame,
    it carries the minus sign right after the start marker, and from -100
    down the id field takes more than 3 characters and the frame more
    than 15. *)
Theorem move_frame_negative_id servo_id pulse_us time_ms :
  servo_id < 0 -> - digit_bound < servo_id -> time_ms < digit_bound ->
  exists frame,
    move_frame servo_id pulse_us time_ms = Some frame /\
    (exists rest, frame = "#-" ++ rest) /\
    (servo_id <= -100 -> (15 < String.length frame)%nat).
Proof.
  intros Hneg Hlow Hhigh. exists (frame_text servo_id pulse_us time_ms).
  split; [now apply move_frame_some|]. split.
  - unfold frame_text. rewrite (Z.min_r 999 servo_id) by lia.
    unfold format_0d_text at 1.
    assert ((servo_id <? 0) = true) as -> by now apply Z.ltb_lt.
    eexists. reflexivity.
  - intros Hhundred. unfold frame_text.
    rewrite (Z.min_r 999 servo_id) by lia.
    assert (4 <= String.length (format_0d_text 3 servo_id))%nat as Hi.
    { rewrite length_format_0d_neg by exact Hneg.
      pose proof (length_str_N_gt (Z.abs_N servo_id) 2) as Hd.
      assert (10 ^ 2 <= Z.abs_N servo_id)%N as Hn.
      { apply N2Z.inj_le. rewrite N2Z.inj_abs_N. cbn. lia. }
      specialize (Hd Hn). lia. }
    assert (4 <= String.length
                   (format_0d_text 4 (Z.max PULSE_MIN_US (Z.min PULSE_MAX_US pulse_us))))%nat
      as Hp.
    { rewrite length_format_0d_nonneg by (unfold PULSE_MIN_US; lia). lia. }
    assert (4 <= String.length (format_0d_text 4 (Z.max 1 time_ms)))%nat as Ht.
    { rewrite length_format_0d_nonneg by lia. lia. }
    rewrite !length_app. cbn [String.length]. lia.
Qed.

Lemma move_frame_negative_id_witness :
  -100 < 0 /\ - digit_bound < -100 /\ 1000 < digit_bound /\
  exists frame,
    move_frame (-100) 1500 1000 = Some frame /\
    (exists rest, frame = "#-" ++ rest) /\
    (-100 <= -100 -> (15 < String.length frame)%nat).
Proof.
  assert (H : -100 < 0) by lia.
  assert (H1 : - digit_bound < -100) by (pose proof digit_bound_large; lia).
  assert (H2 : 1000 < digit_bound) by (pose proof digit_bound_large; lia).
  split; [exact H | split; [exact H1 | split; [exact H2|]]].
  exact (move_frame_negative_id (-100) 1500 1000 H H1 H2).
Defined.

(** X4.  Sending again what a frame reads back as gives the same frame:
    for a non-negative id and a duration of at most 9999 there is a
    frame, its three fields are integers, and encoding them reproduces
    it. *)
Theorem move_frame_reencode servo_id pulse_us time_ms :
  0 <= servo_id -> time_ms <= 9999 ->
  exists frame i p t,
    move_frame servo_id pulse_us time_ms = Some frame /\
    frame_fields frame = (Some i, Some p, Some t) /\
    move_frame i p t = Some frame.
Proof.
  intros Hid Ht.
  destruct (move_frame_decode servo_id pulse_us time_ms Hid Ht) as [_ Hf].
  destruct (clamps_in_range servo_id pulse_us time_ms Hid Ht) as (Hi & _ & Hd).
  eexists _, _, _, _.
  split; [now apply move_frame_bounded|].
  split; [exact Hf|].
  rewrite move_frame_bounded by lia. f_equal. apply move_frame_clamp_idem.
Qed.

Lemma move_frame_reencode_witness :
  0 <= 5 /\ 1 <= 9999 /\
  exists frame i p t,
    move_frame 5 9999 1 = Some frame /\
    frame_fields frame = (Some i, Some p, Some t) /\
    move_frame i p t = Some frame.
Proof.
  assert (H1 : 0 <= 5) by lia.
  assert (H2 : 1 <= 9999) by lia.
  split; [exact H1 | split; [exact H2|]].
  exact (move_frame_reencode 5 9999 1 H1 H2).
Defined.

(** X5.  The shape of every frame: for an id above [-10^4300] and a
    duration below [10^4300] (the triples that can be formatted) there is
    a frame, made of the start marker, an id field of at least 3
    characters, "P", a pulse field of exactly 4 characters that reads as a
    value in 500..2500, "T", a duration field of at least 4 characters that
    reads as a value of at least 1, and the end marker; the fields hold
    digits and minus signs only. *)
Theorem move_frame_shape servo_id pulse_us time_ms :
  - digit_bound < servo_id -> time_ms < digit_bound ->
  exists frame id_field pulse_field time_field p t,
    move_frame servo_id pulse_us time_ms = Some frame /\
    frame = "#" ++ id_field ++ "P" ++ pulse_field ++ "T" ++ time_field ++ "!" /\
    all_chars numeral_char id_field = true /\
    all_chars numeral_char pulse_field = true /\
    all_chars numeral_char time_field = true /\
    (3 <= String.length id_field)%nat /\
    String.length pulse_field = 4%nat /\
    (4 <= String.length time_field)%nat /\
    int pulse_field = Some p /\ 500 <= p <= 2500 /\
    int time_field = Some t /\ 1 <= t.
Proof.
  intros Hi Ht.
  pose proof (move_frame_some servo_id pulse_us time_ms Hi Ht) as Hf.
  apply floored_time_in_limit in Ht.
  exists (frame_text servo_id pulse_us time_ms),
         (format_0d_text 3 (Z.min 999 servo_id)),
         (format_0d_text 4 (Z.max PULSE_MIN_US (Z.min PULSE_MAX_US pulse_us))),
         (format_0d_text 4 (Z.max 1 time_ms)),
         (Z.max PULSE_MIN_US (Z.min PULSE_MAX_US pulse_us)),
         (Z.max 1 time_ms).
  split; [exact Hf|].
  split; [reflexivity|].
  rewrite !format_0d_chars.
  rewrite (int_format_0d 4 (Z.max 1 time_ms)) by (reflexivity || exact Ht).
  rewrite int_format_0d
    by (reflexivity ||
        (apply in_digit_limit_small; unfold PULSE_MIN_US, PULSE_MAX_US; lia)).
  do 3 (split; [reflexivity|]).
  split.
  { destruct (Z.lt_ge_cases (Z.min 999 servo_id) 0) as [Hn|Hp].
    - rewrite length_format_0d_neg by exact Hn. lia.
    - rewrite length_format_0d_nonneg by exact Hp. lia. }
  split.
  { apply length_format_0d_fits; [lia|].
    unfold PULSE_MIN_US, PULSE_MAX_US. cbn. lia. }
  split.
  { rewrite length_format_0d_nonneg by lia. lia. }
  unfold PULSE_MIN_US, PULSE_MAX_US.
  repeat split; try reflexivity; lia.
Qed.

Lemma move_frame_shape_witness :
  - digit_bound < -5 /\ 123456 < digit_bound /\
  exists frame id_field pulse_field time_field p t,
    move_frame (-5) 100000 123456 = Some frame /\
    frame = "#" ++ id_field ++ "P" ++ pulse_field ++ "T" ++ time_field ++ "!" /\
    all_chars numeral_char id_field = true /\
    all_chars numeral_char pulse_field = true /\
    all_chars numeral_char time_field = true /\
    (3 <= String.length id_field)%nat /\
    String.length pulse_field = 4%nat /\
    (4 <= String.length time_field)%nat /\
    int pulse_field = Some p /\ 500 <= p <= 2500 /\
    int time_field = Some t /\ 1 <= t.
Proof.
  assert (H1 : - digit_bound < -5) by (pose proof digit_bound_large; lia).
  assert (H2 : 123456 < digit_bound)
    by exact (proj1 (in_digit_limit_iff 123456) eq_refl).
  split; [exact H1 | split; [exact H2|]].
  exact (move_frame_shape (-5) 100000 123456 H1 H2).
Defined.

Example move_frame_shape_example :
  move_frame (-5) 100000 123456 = Some "#-05P2500T123456!".
Proof. reflexivity. Qed.

End FrameCodecMore.

(* ===================================================================== *)
(** ** Further properties of the segment parser *)
(* ===================================================================== *)

Section CommandParserMore.
Import Py PyFacts.

Lemma string_app_assoc (a b c : string) : (a ++ b) ++ c = a ++ (b ++ c).
Proof. induction a as [|x r IH]; cbn; [reflexivity|]. now rewrite IH. Qed.

Lemma string_app_empty_r (a : string) : a ++ "" = a.
Proof. induction a as [|x r IH]; cbn; [reflexivity|]. now rewrite IH. Qed.

(** X6.  From the typed segment to the wire and back: when the parser
    accepts a segment with a duration of at most 9999, there is a frame
    for its result, it has 15 characters and reads back as the id and the
    duration that were typed and the pulse brought into 500..2500. *)
Theorem parse_encode_decode default_time segment i p t :
  parse_segment default_time segment = Some (i, p, t) ->
  t <= 9999 ->
  exists frame,
    move_frame i p t = Some frame /\
    String.length frame = 15%nat /\
    frame_fields frame = (Some i, Some (spec_clamp_pulse p), Some t).
Proof.
  intros Hparse Ht.
  destruct (parse_segment_some _ _ _ _ _ Hparse)
    as (f0 & f1 & more & _ & _ & _ & _ & Hi & Hp & Hd).
  destruct (move_frame_decode i p t) as [Hlen Hf]; try lia.
  exists (frame_text i p t).
  split; [apply move_frame_bounded; lia|].
  split; [exact Hlen|]. rewrite Hf.
  rewrite <- min_clamp, <- max_floor.
  now rewrite (Z.min_r 999 i), (Z.max_r 1 t) by lia.
Qed.

Lemma parse_encode_decode_witness :
  parse_segment 1000 "12, 3000" = Some (12, 3000, 1000) /\
  1000 <= 9999 /\
  exists frame,
    move_frame 12 3000 1000 = Some frame /\
    String.length frame = 15%nat /\
    frame_fields frame = (Some 12, Some 2500, Some 1000).
Proof.
  assert (H1 : parse_segment 1000 "12, 3000" = Some (12, 3000, 1000)) by reflexivity.
  assert (H2 : 1000 <= 9999) by lia.
  split; [exact H1 | split; [exact H2|]].
  exact (parse_encode_decode 1000 "12, 3000" 12 3000 1000 H1 H2).
Defined.

Lemma str_no_comma x : split "," (str_text x) = [str_text x].
Proof.
  apply split_single.
  eapply all_chars_impl; [apply numeral_char_not_comma | apply format_0d_chars].
Qed.

Lemma range_test i p t :
  (i <? 0) || (999 <? i) || (p <=? 0) || (t <=? 0)
  = negb ((0 <=? i) && (i <=? 999) && (0 <? p) && (0 <? t)).
Proof.
  destruct (Z.ltb_spec i 0), (Z.ltb_spec 999 i), (Z.leb_spec p 0),
    (Z.leb_spec t 0), (Z.leb_spec 0 i), (Z.leb_spec i 999),
    (Z.ltb_spec 0 p), (Z.ltb_spec 0 t); cbn; try reflexivity; lia.
Qed.

(** X7.  The parser reads back three integers written out by [str] (it
    writes out those of at most 4300 digits) and joined by commas: the
    triple itself when the id is in 0..999 and the pulse and the duration
    are positive, nothing otherwise, whatever the default duration. *)
Theorem parse_segment_of_printed default_time i p t ti tp tt :
  Py.str i = Some ti -> Py.str p = Some tp -> Py.str t = Some tt ->
  parse_segment default_time (ti ++ "," ++ tp ++ "," ++ tt)
  = if (0 <=? i) && (i <=? 999) && (0 <? p) && (0 <? t)
    then Some (i, p, t) else None.
Proof.
  intros Hi Hp Ht.
  apply str_inv in Hi as [Li ->]. apply str_inv in Hp as [Lp ->].
  apply str_inv in Ht as [Lt ->].
  rewrite parse_segment_fields.
  change (str_text i ++ "," ++ str_text p ++ "," ++ str_text t)
    with (str_text i ++ String "," (str_text p ++ String "," (str_text t))).
  rewrite !split_app, !str_no_comma. cbn [List.app].
  rewrite !int_str by assumption. rewrite range_test.
  now destruct ((0 <=? i) && (i <=? 999) && (0 <? p) && (0 <? t)).
Qed.

Lemma parse_segment_of_printed_witness :
  Py.str 7 = Some "7" /\ Py.str 1500 = Some "1500" /\ Py.str (-250) = Some "-250" /\
  parse_segment 1000 "7,1500,-250" = None.
Proof.
  split; [reflexivity | split; [reflexivity | split; [reflexivity|]]].
  exact (parse_segment_of_printed 1000 7 1500 (-250) "7" "1500" "-250"
           eq_refl eq_refl eq_refl).
Defined.

(** X8.  With two integers only, the duration is the default, and the
    segment is refused when that default is not positive. *)
Theorem parse_segment_of_printed_pair default_time i p ti tp :
  Py.str i = Some ti -> Py.str p = Some tp ->
  parse_segment default_time (ti ++ "," ++ tp)
  = if (0 <=? i) && (i <=? 999) && (0 <? p) && (0 <? default_time)
    then Some (i, p, default_time) else None.
Proof.
  intros Hi Hp.
  apply str_inv in Hi as [Li ->]. apply str_inv in Hp as [Lp ->].
  rewrite parse_segment_fields.
  change (str_text i ++ "," ++ str_text p) with (str_text i ++ String "," (str_text p)).
  rewrite !split_app, !str_no_comma. cbn [List.app].
  rewrite !int_str by assumption. rewrite range_test.
  now destruct ((0 <=? i) && (i <=? 999) && (0 <? p) && (0 <? default_time)).
Qed.

Lemma parse_segment_of_printed_pair_witness :
  Py.str 999 = Some "999" /\ Py.str 30000 = Some "30000" /\
  parse_segment 250 "999,30000" = Some (999, 30000, 250).
Proof.
  split; [reflexivity | split; [reflexivity|]].
  exact (parse_segment_of_printed_pair 250 999 30000 "999" "30000" eq_refl eq_refl).
Defined.

(** The parser sees a segment only through what [int] makes of its
    fields. *)
Lemma parse_segment_ext default_time s1 s2 :
  map int (split "," s1) = map int (split "," s2) ->
  parse_segment default_time s1 = parse_segment default_time s2.
Proof.
  intros H. rewrite !parse_segment_fields.
  destruct (split "," s1) as [|a0 [|a1 [|a2 ar]]],
           (split "," s2) as [|b0 [|b1 [|b2 br]]];
    try discriminate H; try reflexivity; cbn in H.
  - now injection H as -> ->.
  - now injection H as -> -> ->.
Qed.

Lemma rstrip_by_snoc p c s :
  p c = true -> rstrip_by p (s ++ String c "") = rstrip_by p s.
Proof.
  intros Hc. induction s as [|x r IH]; cbn.
  - now rewrite Hc.
  - now rewrite IH.
Qed.

Lemma lstrip_by_snoc p c s :
  p c = true ->
  lstrip_by p (s ++ String c "")
  = if is_empty (lstrip_by p s) then "" else lstrip_by p s ++ String c "".
Proof.
  intros Hc. induction s as [|x r IH]; cbn.
  - now rewrite Hc.
  - destruct (p x); [exact IH | reflexivity].
Qed.

Lemma strip_by_snoc p c s :
  p c = true -> strip_by p (s ++ String c "") = strip_by p s.
Proof.
  intros Hc. unfold strip_by. rewrite lstrip_by_snoc by exact Hc.
  destruct (lstrip_by p s) as [|x r]; [reflexivity|].
  cbn [is_empty]. now apply rstrip_by_snoc.
Qed.

Lemma int_leading_blank f : int (String " " f) = int f.
Proof. reflexivity. Qed.

Lemma int_trailing_blank f : int (f ++ " ") = int f.
Proof. unfold int. now rewrite strip_by_snoc. Qed.

Lemma split_leading c sep s :
  Ascii.eqb c sep = false ->
  map int (split sep (String c s))
  = match split sep s with
    | f :: fs => int (String c f) :: map int fs
    | [] => []
    end.
Proof.
  intros Hc. destruct (split_cons sep c s Hc) as (f & fs & -> & ->).
  reflexivity.
Qed.

Lemma split_snoc c sep s :
  Ascii.eqb c sep = false ->
  exists init last,
    split sep s = (init ++ [last])%list /\
    split sep (s ++ String c "") = (init ++ [(last ++ String c "")%string])%list.
Proof.
  intros Hc. induction s as [|x r (init & last & E1 & E2)].
  - exists [], "". cbn. now rewrite Hc.
  - cbn [append split]. rewrite E1, E2.
    destruct (Ascii.eqb x sep).
    + now exists ("" :: init), last.
    + destruct init as [|h tl]; cbn.
      * now exists [], (String x last).
      * now exists (String x h :: tl), last.
Qed.

(** X9.  A blank before and after a comma changes nothing: [int] skips
    the blanks around each field. *)
Theorem parse_segment_blanks_around_comma default_time a b :
  parse_segment default_time (a ++ " , " ++ b)
  = parse_segment default_time (a ++ "," ++ b).
Proof.
  apply parse_segment_ext.
  change (a ++ " , " ++ b) with (a ++ " " ++ String "," (String " " b)).
  rewrite <- string_app_assoc.
  change (a ++ "," ++ b) with (a ++ String "," b).
  rewrite !split_app, !map_app.
  destruct (split_snoc " " "," a eq_refl) as (init & last & -> & ->).
  rewrite (split_leading " " "," b eq_refl).
  destruct (split "," b) as [|f fs] eqn:Eb; [now apply split_not_nil in Eb|].
  rewrite !map_app. cbn [map].
  now rewrite int_trailing_blank, int_leading_blank.
Qed.

End CommandParserMore.

(* ===================================================================== *)
(** ** Further properties of the passthrough *)
(* ===================================================================== *)

Section PassthroughMore.
Import Py PyFacts.

Lemma concat_cons x xs :
  String.concat "" (x :: xs) = x ++ String.concat "" xs.
Proof.
  destruct xs as [|y ys]; cbn [String.concat].
  - now rewrite string_app_empty_r.
  - reflexivity.
Qed.

(** The reply loop reads the buffers one after the other up to the first
    empty one, which it consumes, and touches nothing after it. *)
Lemma drain_chunks chunks rest : forall response tr,
  Forall (fun chunk => is_empty chunk = false) chunks ->
  hd "" rest = "" ->
  drain (chunks ++ rest) response tr
  = (response ++ String.concat "" (map decode_ascii_ignore chunks),
     (tr ++ map SerialRead chunks)%list,
     tl rest).
Proof.
  induction chunks as [|chunk more IH]; intros response tr Hne Hrest.
  - cbn [List.app map String.concat]. rewrite string_app_empty_r, app_nil_r.
    destruct rest as [|r later]; [reflexivity|].
    cbn in Hrest. subst r. reflexivity.
  - inversion Hne as [|? ? Hc Hmore]; subst.
    cbn [List.app drain map]. rewrite Hc, IH by assumption.
    rewrite concat_cons, string_app_assoc, <- List.app_assoc. reflexivity.
Qed.

Lemma well_formed_payload_ascii command :
  all_chars is_ascii command = true ->
  all_chars is_ascii (slice_from 1 command) = true.
Proof.
  destruct command as [|c r]; [reflexivity|].
  cbn. intros H. now apply andb_true_iff in H as [_ H].
Qed.

Lemma send_passthrough_run command chunks rest s :
  starts_with_C_hash command -> ends_with_bang command ->
  all_chars is_ascii command = true ->
  Forall (fun chunk => is_empty chunk = false) chunks ->
  hd "" rest = "" ->
  rx s = (chunks ++ rest)%list ->
  let payload := slice_from 1 command in
  let response := String.concat "" (map decode_ascii_ignore chunks) in
  send_passthrough command s
  = Ok ("C# sent -> " ++ payload
        ++ (if is_empty response then ""
            else newline ++ "Response: " ++ response))
       (mkState (default_time_ms s)
                (trace s ++ [SerialWrite payload; Sleep 50]
                         ++ map SerialRead chunks)
                (tl rest)).
Proof.
  intros Hs He Ha Hne Hrest Hrx. cbv zeta.
  rewrite send_passthrough_cases.
  assert (is_C_hash command && endswith "!" command = true) as ->
      by now apply well_formed_iff.
  rewrite passthrough_exchange_run, well_formed_payload_ascii by exact Ha.
  rewrite Hrx, drain_chunks by assumption.
  cbn [append]. now rewrite <- List.app_assoc.
Qed.

(** X10.  The exchange of a well-formed ASCII command with the device:
    the payload is written once, the settle delay of 50 ms follows, then
    the input buffer is read as long as the port reports bytes waiting.
    The report carries the bytes read, in order, without those above 127;
    whatever arrives after the port was once found empty is left unread. *)
Theorem send_passthrough_exchange command chunks rest s :
  starts_with_C_hash command -> ends_with_bang command ->
  all_chars is_ascii command = true ->
  Forall (fun chunk => is_empty chunk = false) chunks ->
  hd "" rest = "" ->
  rx s = (chunks ++ rest)%list ->
  let payload := slice_from 1 command in
  let response := String.concat "" (map decode_ascii_ignore chunks) in
  send_passthrough command s
  = Ok ("C# sent -> " ++ payload
        ++ (if is_empty response then ""
            else newline ++ "Response: " ++ response))
       (mkState (default_time_ms s)
                (trace s ++ [SerialWrite payload; Sleep 50]
                         ++ map SerialRead chunks)
                (tl rest)).
Proof. apply send_passthrough_run. Qed.

Lemma send_passthrough_exchange_witness :
  starts_with_C_hash "C#001PRAD!" /\ ends_with_bang "C#001PRAD!" /\
  send_passthrough "C#001PRAD!"
    (mkState 1000 [] ["#001"; String (ascii_of_nat 200) "P1500!"; ""; "late"])
  = Ok ("C# sent -> #001PRAD!" ++ newline ++ "Response: #001P1500!")
       (mkState 1000
          [SerialWrite "#001PRAD!"; Sleep 50;
           SerialRead "#001"; SerialRead (String (ascii_of_nat 200) "P1500!")]
          ["late"]).
Proof.
  assert (Hs : starts_with_C_hash "C#001PRAD!") by (now apply is_C_hash_iff).
  assert (He : ends_with_bang "C#001PRAD!") by (now apply endswith_bang_iff).
  split; [exact Hs | split; [exact He|]].
  refine (send_passthrough_exchange "C#001PRAD!"
            ["#001"; String (ascii_of_nat 200) "P1500!"] [""; "late"]
            (mkState 1000 [] ["#001"; String (ascii_of_nat 200) "P1500!"; ""; "late"])
            Hs He eq_refl _ eq_refl eq_refl).
  repeat constructor.
Defined.

Lemma decode_nothing chunk :
  all_chars (fun c => negb (is_ascii c)) chunk = true ->
  decode_ascii_ignore chunk = "".
Proof.
  unfold decode_ascii_ignore.
  induction chunk as [|c r IH]; cbn; [reflexivity|].
  intros H. apply andb_true_iff in H as [Hc Hr].
  apply negb_true_iff in Hc. rewrite Hc. now apply IH.
Qed.

Lemma concat_nothing chunks :
  Forall (fun chunk => all_chars (fun c => negb (is_ascii c)) chunk = true) chunks ->
  String.concat "" (map decode_ascii_ignore chunks) = "".
Proof.
  induction 1 as [|chunk more Hc _ IH]; [reflexivity|].
  cbn [map]. now rewrite concat_cons, IH, decode_nothing.
Qed.

(** X11.  A reply made only of bytes above 127 is read from the port but
    reported as no reply at all: the report is the bare "C# sent -> " line
    although the bytes are gone from the input buffer. *)
Theorem send_passthrough_undecodable_reply command chunks rest s :
  starts_with_C_hash command -> ends_with_bang command ->
  all_chars is_ascii command = true ->
  Forall (fun chunk => is_empty chunk = false) chunks ->
  Forall (fun chunk => all_chars (fun c => negb (is_ascii c)) chunk = true) chunks ->
  hd "" rest = "" ->
  rx s = (chunks ++ rest)%list ->
  send_passthrough command s
  = Ok ("C# sent -> " ++ slice_from 1 command)
       (mkState (default_time_ms s)
                (trace s ++ [SerialWrite (slice_from 1 command); Sleep 50]
                         ++ map SerialRead chunks)
                (tl rest)).
Proof.
  intros Hs He Ha Hne Hhigh Hrest Hrx.
  rewrite (send_passthrough_run command chunks rest s) by assumption.
  rewrite concat_nothing by exact Hhigh.
  cbn [is_empty]. now rewrite string_app_empty_r.
Qed.

Lemma send_passthrough_undecodable_reply_witness :
  starts_with_C_hash "c#9!" /\ ends_with_bang "c#9!" /\
  send_passthrough "c#9!"
    (mkState 1000 []
       [String (ascii_of_nat 255) (String (ascii_of_nat 128) "")])
  = Ok "C# sent -> #9!"
       (mkState 1000
          [SerialWrite "#9!"; Sleep 50;
           SerialRead (String (ascii_of_nat 255) (String (ascii_of_nat 128) ""))]
          []).
Proof.
  assert (Hs : starts_with_C_hash "c#9!") by (now apply is_C_hash_iff).
  assert (He : ends_with_bang "c#9!") by (now apply endswith_bang_iff).
  split; [exact Hs | split; [exact He|]].
  refine (send_passthrough_undecodable_reply "c#9!"
            [String (ascii_of_nat 255) (String (ascii_of_nat 128) "")] []
            (mkState 1000 []
               [String (ascii_of_nat 255) (String (ascii_of_nat 128) "")])
            Hs He eq_refl _ _ eq_refl eq_refl);
    repeat constructor.
Defined.

(** X12.  A command that passes the validation but holds a character
    above 127 makes the method raise [UnicodeEncodeError] before anything
    is written: the state is the one it was given. *)
Theorem send_passthrough_non_ascii command s :
  starts_with_C_hash command -> ends_with_bang command ->
  all_chars is_ascii command = false ->
  send_passthrough command s = Raise UnicodeEncodeError s.
Proof.
  intros Hs He Ha. rewrite send_passthrough_cases.
  assert (is_C_hash command && endswith "!" command = true) as ->
      by now apply well_formed_iff.
  rewrite passthrough_exchange_run.
  assert (all_chars is_ascii (slice_from 1 command) = false) as ->; [|reflexivity].
  destruct Hs as (c & r & -> & [-> | ->]); exact Ha.
Qed.

Lemma send_passthrough_non_ascii_witness :
  starts_with_C_hash ("C#" ++ String (ascii_of_nat 233) "!") /\
  ends_with_bang ("C#" ++ String (ascii_of_nat 233) "!") /\
  all_chars is_ascii ("C#" ++ String (ascii_of_nat 233) "!") = false /\
  send_passthrough ("C#" ++ String (ascii_of_nat 233) "!") (initial_state ["reply"])
  = Raise UnicodeEncodeError (initial_state ["reply"]).
Proof.
  assert (Hs : starts_with_C_hash ("C#" ++ String (ascii_of_nat 233) "!"))
    by (now apply is_C_hash_iff).
  assert (He : ends_with_bang ("C#" ++ String (ascii_of_nat 233) "!"))
    by (now apply endswith_bang_iff).
  split; [exact Hs | split; [exact He | split; [reflexivity|]]].
  exact (send_passthrough_non_ascii _ (initial_state ["reply"]) Hs He eq_refl).
Defined.

End PassthroughMore.

(* ===================================================================== *)
(** ** Further properties of the line dispatcher *)
(* ===================================================================== *)

Section DispatcherMore.
Import Py PyFacts.

(** *** Trimming *)

Lemma lstrip_by_all p s : all_chars p s = true -> lstrip_by p s = "".
Proof.
  induction s as [|c r IH]; cbn; [reflexivity|].
  intros H. apply andb_true_iff in H as [-> Hr]. now apply IH.
Qed.

Lemma lstrip_by_head p s :
  match lstrip_by p s with
  | EmptyString => True
  | String c _ => p c = false
  end.
Proof.
  induction s as [|c r IH]; cbn; [exact I|].
  destruct (p c) eqn:Hc; [exact IH | exact Hc].
Qed.

Lemma rstrip_by_head p c r :
  p c = false -> rstrip_by p (String c r) = String c (rstrip_by p r).
Proof. intros Hc. cbn. now rewrite Hc, andb_false_r. Qed.

Lemma rstrip_by_idem p s : rstrip_by p (rstrip_by p s) = rstrip_by p s.
Proof.
  induction s as [|c r IH]; cbn; [reflexivity|].
  destruct (is_empty (rstrip_by p r) && p c) eqn:E; [reflexivity|].
  cbn. now rewrite IH, E.
Qed.

Lemma strip_by_idem p s : strip_by p (strip_by p s) = strip_by p s.
Proof.
  unfold strip_by. pose proof (lstrip_by_head p s) as Hh.
  destruct (lstrip_by p s) as [|c r]; [reflexivity|].
  rewrite (rstrip_by_head p c r Hh). cbn [lstrip_by]. rewrite Hh.
  rewrite <- (rstrip_by_head p c r Hh). apply rstrip_by_idem.
Qed.

Lemma all_chars_lstrip q p s :
  all_chars q s = true -> all_chars q (lstrip_by p s) = true.
Proof.
  induction s as [|c r IH]; cbn; [reflexivity|].
  intros H. destruct (p c); [|exact H].
  apply andb_true_iff in H as [_ H]. now apply IH.
Qed.

Lemma all_chars_rstrip q p s :
  all_chars q s = true -> all_chars q (rstrip_by p s) = true.
Proof.
  induction s as [|c r IH]; cbn; [reflexivity|].
  intros H. apply andb_true_iff in H as [Hc Hr].
  destruct (is_empty (rstrip_by p r) && p c); [reflexivity|].
  cbn. now rewrite Hc, IH.
Qed.

Lemma all_chars_strip q s : all_chars q s = true -> all_chars q (strip s) = true.
Proof. intros H. now apply all_chars_rstrip, all_chars_lstrip. Qed.

(** *** The branches, one at a time *)

Lemma passthrough_line_run line s :
  is_C_hash (strip line) = true ->
  process_command line s = passthrough_branch (strip line) s.
Proof.
  intros H. rewrite process_command_dispatch. unfold classify. now rewrite H.
Qed.

Lemma C_hash_tail_ascii l :
  is_C_hash l = true ->
  all_chars is_ascii (slice_from 1 l) = all_chars is_ascii l.
Proof.
  intros H. apply is_C_hash_iff in H as (c & r & -> & [-> | ->]); reflexivity.
Qed.

(** What [process_command] does on a passthrough line, case by case. *)
Lemma passthrough_branch_cases l s :
  is_C_hash l = true ->
  passthrough_branch l s =
  if endswith "!" l then
    if all_chars is_ascii l then
      let '(response, tr, later) :=
        drain (rx s) "" (trace s ++ [SerialWrite (slice_from 1 l); Sleep 50]) in
      Ok tt (mkState (default_time_ms s)
               (tr ++ [Print ("C# sent -> " ++ slice_from 1 l
                              ++ (if is_empty response then ""
                                  else newline ++ "Response: " ++ response))])
               later)
    else Raise UnicodeEncodeError s
  else Ok tt (add_events s [Print INVALID_PASSTHROUGH]).
Proof.
  intros H. unfold passthrough_branch, bind.
  rewrite send_passthrough_cases, H. cbn [andb].
  destruct (endswith "!" l); [|reflexivity].
  rewrite passthrough_exchange_run, (C_hash_tail_ascii l H).
  destruct (all_chars is_ascii l); [|reflexivity].
  destruct (drain _ _ _) as [[response tr] later]. reflexivity.
Qed.

Lemma other_line_run line s :
  is_C_hash (strip line) = false ->
  default_time_ms s < digit_bound ->
  exists d evs, process_command line s = Ok tt (mkState d (trace s ++ evs) (rx s)).
Proof.
  intros H Hd. rewrite process_command_dispatch. unfold classify. rewrite H.
  destruct (is_ct (strip line)).
  - destruct (ct_branch_prints_once (strip line) s) as (d & text & ->).
    now exists d, [Print text].
  - rewrite segments_branch_run by exact Hd. now eexists _, _.
Qed.

(** The segment loop in any state: it adds events and returns, or adds
    events and lets [ValueError] escape. *)
Lemma for_each_segment_cases segments : forall s,
  exists evs,
    for_each segments process_segment s = Ok tt (add_events s evs) \/
    for_each segments process_segment s = Raise ValueError (add_events s evs).
Proof.
  induction segments as [|segment rest IH]; intros s; cbn [for_each].
  - exists []. left. now rewrite add_events_nil.
  - unfold bind.
    destruct (process_segment_cases segment s) as [(evs & ->) | ->].
    + destruct (IH (add_events s evs)) as (more & [-> | ->]);
        exists (evs ++ more)%list; rewrite add_events_app; auto.
    + exists []. right. now rewrite add_events_nil.
Qed.

Lemma other_line_cases line s :
  is_C_hash (strip line) = false ->
  exists d evs,
    process_command line s = Ok tt (mkState d (trace s ++ evs) (rx s)) \/
    process_command line s = Raise ValueError (mkState d (trace s ++ evs) (rx s)).
Proof.
  intros H. rewrite process_command_dispatch. unfold classify. rewrite H.
  destruct (is_ct (strip line)).
  - destruct (ct_branch_prints_once (strip line) s) as (d & text & ->).
    exists d, [Print text]. now left.
  - unfold segments_branch.
    destruct (for_each_segment_cases (split ";" (strip line)) s) as (evs & [-> | ->]);
      exists (default_time_ms s), evs; auto.
Qed.

(** When the command raises. *)
Lemma process_command_raise_cases line s e s' :
  default_time_ms s < digit_bound ->
  (process_command line s = Raise e s' <->
  e = UnicodeEncodeError /\ s' = s /\
  starts_with_C_hash (strip line) /\ ends_with_bang (strip line) /\
  all_chars is_ascii (strip line) = false).
Proof.
  intros Hd. rewrite <- is_C_hash_iff, <- endswith_bang_iff.
  destruct (is_C_hash (strip line)) eqn:Hc.
  - rewrite (passthrough_line_run line s Hc), (passthrough_branch_cases _ s Hc).
    destruct (endswith "!" (strip line)).
    + destruct (all_chars is_ascii (strip line)).
      * destruct (drain _ _ _) as [[response tr] later].
        split; [discriminate | intros (_ & _ & _ & _ & H); discriminate H].
      * split; [intros [= <- <-]; auto | intros (-> & -> & _); reflexivity].
    + split; [discriminate | intros (_ & _ & _ & H & _); discriminate H].
  - destruct (other_line_run line s Hc Hd) as (d & evs & ->).
    split; [discriminate | intros (_ & _ & H & _); discriminate H].
Qed.

(** X13.  In a state whose default duration can be formatted (every
    state a session reaches), the only way out of [process_command] other
    than a normal return is [UnicodeEncodeError], and it is taken exactly
    by a trimmed line that starts with "C#", ends with "!" and holds a
    character above 127; the state is then untouched, nothing was written
    or printed. *)
Theorem process_command_raises_iff line s e s' :
  default_time_ms s < digit_bound ->
  (process_command line s = Raise e s' <->
   e = UnicodeEncodeError /\ s' = s /\
   starts_with_C_hash (strip line) /\ ends_with_bang (strip line) /\
   all_chars is_ascii (strip line) = false).
Proof. apply process_command_raise_cases. Qed.

Lemma process_command_raises_iff_witness :
  default_time_ms (initial_state ["x"]) < digit_bound /\
  process_command (" c#" ++ String (ascii_of_nat 233) "! ") (initial_state ["x"])
  = Raise UnicodeEncodeError (initial_state ["x"]).
Proof.
  pose proof (initial_default_in_limit ["x"]) as Hd.
  split; [exact Hd|].
  apply (proj2 (process_command_raises_iff
                  (" c#" ++ String (ascii_of_nat 233) "! ") (initial_state ["x"])
                  UnicodeEncodeError (initial_state ["x"]) Hd)).
  split; [reflexivity | split; [reflexivity | split; [|split; [|reflexivity]]]].
  - now apply is_C_hash_iff.
  - now apply endswith_bang_iff.
Defined.

(** X14.  On a line of ASCII characters, in a state whose default
    duration can be formatted (every state a session reaches),
    [process_command] always returns normally. *)
Theorem process_command_ascii_returns line s :
  all_chars is_ascii line = true ->
  default_time_ms s < digit_bound ->
  exists s', process_command line s = Ok tt s'.
Proof.
  intros Ha Hd. apply all_chars_strip in Ha.
  destruct (process_command line s) as [[] s'|e s'] eqn:E; [now exists s'|].
  apply (process_command_raise_cases line s e s' Hd) in E as (_ & _ & _ & _ & H).
  congruence.
Qed.

Lemma process_command_ascii_returns_witness :
  all_chars is_ascii "C#000PRAD! " = true /\
  default_time_ms (initial_state ["ok"]) < digit_bound /\
  exists s', process_command "C#000PRAD! " (initial_state ["ok"]) = Ok tt s'.
Proof.
  pose proof (initial_default_in_limit ["ok"]) as Hd.
  split; [reflexivity | split; [exact Hd|]].
  exact (process_command_ascii_returns "C#000PRAD! " (initial_state ["ok"]) eq_refl Hd).
Defined.

Lemma drain_rx polls : forall response tr,
  exists consumed, polls = (consumed ++ snd (drain polls response tr))%list.
Proof.
  induction polls as [|buffer later IH]; intros response tr; cbn [drain].
  - now exists [].
  - destruct (is_empty buffer).
    + now exists [buffer].
    + destruct (IH (response ++ decode_ascii_ignore buffer)
                   (tr ++ [SerialRead buffer])%list) as (consumed & E).
      exists (buffer :: consumed). cbn. now rewrite <- E.
Qed.

(** X15.  Whatever the line and however the command ends, the trace only
    grows at its end and the input of the port is only consumed from its
    front; a line that is not a passthrough leaves that input alone. *)
Theorem process_command_monotone line s :
  match process_command line s with
  | Ok _ s' | Raise _ s' =>
      (exists evs, trace s' = (trace s ++ evs)%list) /\
      (exists consumed, rx s = (consumed ++ rx s')%list) /\
      (is_C_hash (strip line) = false -> rx s' = rx s)
  end.
Proof.
  destruct (is_C_hash (strip line)) eqn:Hc.
  - rewrite (passthrough_line_run line s Hc), (passthrough_branch_cases _ s Hc).
    destruct (endswith "!" (strip line)).
    + destruct (all_chars is_ascii (strip line)).
      * pose proof (drain_trace (rx s) ""
                      (trace s ++ [SerialWrite (slice_from 1 (strip line)); Sleep 50])%list)
          as (reads & Ht & _).
        pose proof (drain_rx (rx s) ""
                      (trace s ++ [SerialWrite (slice_from 1 (strip line)); Sleep 50])%list)
          as (consumed & Hr).
        destruct (drain _ _ _) as [[response tr] later]. cbn in Ht, Hr. subst tr.
        split; [|split; [now exists consumed | discriminate]].
        cbn [trace]. rewrite <- !List.app_assoc. now eexists.
      * split; [exists []; now rewrite app_nil_r|].
        split; [now exists [] | reflexivity].
    + split; [now eexists|]. split; [now exists [] | reflexivity].
  - destruct (other_line_cases line s Hc) as (d & evs & [-> | ->]);
      (split; [now exists evs|]; split; [now exists [] | reflexivity]).
Qed.

Lemma process_command_monotone_witness :
  match process_command "C#1!" (mkState 1000 [Print "before"] ["a"; ""; "b"]) with
  | Ok _ s' | Raise _ s' =>
      (exists evs, trace s' = ([Print "before"] ++ evs)%list) /\
      (exists consumed, ["a"; ""; "b"] = (consumed ++ rx s')%list) /\
      (is_C_hash (strip "C#1!") = false -> rx s' = ["a"; ""; "b"])
  end.
Proof.
  exact (process_command_monotone "C#1!"
           (mkState 1000 [Print "before"] ["a"; ""; "b"])).
Defined.

Lemma for_each_default_positive lines : forall s,
  0 < default_time_ms s < digit_bound ->
  match for_each lines process_command s with
  | Ok _ s' | Raise _ s' => 0 < default_time_ms s' < digit_bound
  end.
Proof.
  induction lines as [|line rest IH]; intros s Hpos; cbn [for_each].
  - exact Hpos.
  - unfold bind.
    pose proof (process_command_default_positive line s Hpos) as H.
    destruct (process_command line s) as [[] s'|e s']; [now apply IH | exact H].
Qed.

(** X16.  In every state that a session can reach from the initial one by
    calls of [process_command], the default duration is positive and can
    be formatted; a segment of two integers written out by [str], with an
    id in 0..999 and a positive pulse, is therefore always accepted there,
    with the default as its duration. *)
Theorem session_default_positive lines replies :
  match for_each lines process_command (initial_state replies) with
  | Ok _ s' | Raise _ s' =>
      0 < default_time_ms s' < digit_bound /\
      forall i p ti tp,
        Py.str i = Some ti -> Py.str p = Some tp ->
        0 <= i <= 999 -> 0 < p ->
        parse_segment (default_time_ms s') (ti ++ "," ++ tp)
        = Some (i, p, default_time_ms s')
  end.
Proof.
  assert (0 < default_time_ms (initial_state replies) < digit_bound) as H0.
  { pose proof (initial_default_in_limit replies) as Hd.
    split; [reflexivity | exact Hd]. }
  pose proof (for_each_default_positive lines (initial_state replies) H0) as H.
  assert (forall d, 0 < d ->
            forall i p ti tp,
              Py.str i = Some ti -> Py.str p = Some tp ->
              0 <= i <= 999 -> 0 < p ->
              parse_segment d (ti ++ "," ++ tp) = Some (i, p, d)) as Hseg.
  { intros d Hd i p ti tp Si Sp Hi Hp.
    apply str_inv in Si as [Li ->]. apply str_inv in Sp as [Lp ->].
    apply (parse_segment_accepts d _ (str_text i) (str_text p) []); try lia.
    - change (str_text i ++ "," ++ str_text p) with (str_text i ++ String "," (str_text p)).
      now rewrite split_app, !str_no_comma.
    - now apply int_str.
    - now apply int_str.
    - reflexivity. }
  destruct (for_each lines process_command (initial_state replies));
    (split; [exact H | apply Hseg; lia]).
Qed.

Lemma session_default_positive_witness :
  match for_each ["ct0"; "ct250"; "C#1!"; "ct-3"] process_command (initial_state []) with
  | Ok _ s' | Raise _ s' =>
      0 < default_time_ms s' < digit_bound /\
      forall i p ti tp,
        Py.str i = Some ti -> Py.str p = Some tp ->
        0 <= i <= 999 -> 0 < p ->
        parse_segment (default_time_ms s') (ti ++ "," ++ tp)
        = Some (i, p, default_time_ms s')
  end.
Proof.
  exact (session_default_positive ["ct0"; "ct250"; "C#1!"; "ct-3"] []).
Defined.

(** X17.  Blanks around a line do not matter: the line and the trimmed
    line are processed alike. *)
Theorem process_command_trims line s :
  process_command (strip line) s = process_command line s.
Proof.
  rewrite !process_command_dispatch. unfold strip.
  now rewrite !strip_by_idem.
Qed.

(** X18.  A line of blanks only does nothing at all. *)
Theorem process_command_blank line s :
  all_chars isspace line = true ->
  process_command line s = Ok tt s.
Proof.
  intros H. unfold process_command, strip, strip_by.
  now rewrite lstrip_by_all.
Qed.

Lemma process_command_blank_witness :
  all_chars isspace (String (ascii_of_nat 9) "  ") = true /\
  process_command (String (ascii_of_nat 9) "  ") (initial_state ["x"])
  = Ok tt (initial_state ["x"]).
Proof.
  split; [reflexivity|].
  exact (process_command_blank (String (ascii_of_nat 9) "  ")
           (initial_state ["x"]) eq_refl).
Defined.

(** X19.  A line that starts with "C#" but does not end with "!" is not
    tried as anything else: the error text is printed and that is all,
    even when the rest of the line holds valid move segments. *)
Theorem process_command_unterminated_passthrough line s :
  starts_with_C_hash (strip line) -> ~ ends_with_bang (strip line) ->
  process_command line s = Ok tt (add_events s [Print INVALID_PASSTHROUGH]).
Proof.
  intros Hs He. apply is_C_hash_iff in Hs.
  rewrite (passthrough_line_run line s Hs), (passthrough_branch_cases _ s Hs).
  destruct (endswith "!" (strip line)) eqn:E; [|reflexivity].
  apply endswith_bang_iff in E. contradiction.
Qed.

Lemma process_command_unterminated_passthrough_witness :
  starts_with_C_hash (strip "c#;0,1500") /\ ~ ends_with_bang (strip "c#;0,1500") /\
  process_command "c#;0,1500" (initial_state [])
  = Ok tt (mkState 1000 [Print INVALID_PASSTHROUGH] []).
Proof.
  assert (Hs : starts_with_C_hash (strip "c#;0,1500")) by (now apply is_C_hash_iff).
  assert (He : ~ ends_with_bang (strip "c#;0,1500")).
  { intros H. apply endswith_bang_iff in H. vm_compute in H. discriminate H. }
  split; [exact Hs | split; [exact He|]].
  exact (process_command_unterminated_passthrough "c#;0,1500" (initial_state []) Hs He).
Defined.

End DispatcherMore.

(* ===================================================================== *)
(** ** Joining move lines with ";" *)
(* ===================================================================== *)

Section JoinedLines.
Import Py PyFacts.

Lemma space_not_semicolon c : isspace c = true -> Ascii.eqb c ";" = false.
Proof. by_char c. Qed.

Lemma space_not_marker c :
  isspace c = true -> Ascii.eqb c "#" = false /\ Ascii.eqb c "t" = false.
Proof. by_char c; intros _; split; reflexivity. Qed.

Lemma lstrip_rstrip_comm p s :
  lstrip_by p (rstrip_by p s) = rstrip_by p (lstrip_by p s).
Proof.
  induction s as [|c r IH]; [reflexivity|].
  destruct (p c) eqn:Hc.
  - cbn [lstrip_by rstrip_by]. rewrite Hc, andb_true_r, <- IH.
    destruct (rstrip_by p r) as [|x t] eqn:E; [reflexivity|].
    cbn [is_empty lstrip_by]. now rewrite Hc.
  - rewrite (rstrip_by_head p c r Hc). cbn [lstrip_by]. rewrite Hc.
    now rewrite (rstrip_by_head p c r Hc).
Qed.

Lemma strip_rstrip s : strip (rstrip_by isspace s) = strip s.
Proof.
  unfold strip, strip_by.
  now rewrite lstrip_rstrip_comm, rstrip_by_idem.
Qed.

Lemma strip_leading_space c s : isspace c = true -> strip (String c s) = strip s.
Proof. intros Hc. unfold strip, strip_by. cbn [lstrip_by]. now rewrite Hc. Qed.

(** Trimming the line on the left changes no trimmed segment. *)
Lemma segments_lstrip x :
  map strip (split ";" (lstrip_by isspace x)) = map strip (split ";" x).
Proof.
  induction x as [|c r IH]; [reflexivity|].
  cbn [lstrip_by]. destruct (isspace c) eqn:Hc; [|reflexivity].
  rewrite IH.
  destruct (split_cons ";" c r (space_not_semicolon c Hc)) as (f & fs & -> & ->).
  cbn [map]. now rewrite strip_leading_space.
Qed.

Lemma split_singleton sep s l : split sep s = [l] -> s = l.
Proof.
  revert l. induction s as [|c r IH]; intros l; cbn.
  - now intros [= <-].
  - destruct (Ascii.eqb c sep).
    + intros [= _ H]. now apply split_not_nil in H.
    + destruct (split sep r) as [|f fs] eqn:E; [now apply split_not_nil in E|].
      intros [= <- ->]. now rewrite (IH f eq_refl).
Qed.

(** Trimming the line on the right trims its last segment and no other. *)
Lemma split_rstrip p sep x :
  p sep = false ->
  exists init last,
    split sep x = (init ++ [last])%list /\
    split sep (rstrip_by p x) = (init ++ [rstrip_by p last])%list.
Proof.
  intros Hsep. induction x as [|c r (init & last & E1 & E2)].
  - now exists [], "".
  - destruct (Ascii.eqb c sep) eqn:Hc.
    + apply Ascii.eqb_eq in Hc as ->.
      rewrite (rstrip_by_head p sep r Hsep). cbn [split].
      rewrite Ascii.eqb_refl, E1, E2. now exists ("" :: init), last.
    + cbn [rstrip_by].
      destruct (is_empty (rstrip_by p r) && p c) eqn:Hcond.
      * apply andb_true_iff in Hcond as [He Hp].
        destruct (rstrip_by p r) as [|? ?] eqn:Er; [|discriminate He].
        cbn [split] in E2.
        destruct init as [|h tl]; cbn in E2;
          [|injection E2 as _ E2; now destruct tl].
        injection E2 as E2.
        exists [], (String c last). cbn [List.app split].
        rewrite Hc, E1. cbn [List.app rstrip_by].
        rewrite <- E2, Hp. now split.
      * destruct init as [|h tl].
        -- cbn [List.app] in E1, E2.
           assert (last = r) as -> by (symmetry; now apply (split_singleton sep)).
           exists [], (String c r). cbn [split List.app].
           rewrite Hc, E1, E2. split; [reflexivity|].
           cbn [rstrip_by]. now rewrite Hcond.
        -- exists (String c h :: tl), last. cbn [split].
           rewrite Hc, E1, E2. now split.
Qed.

Lemma segments_rstrip x :
  map strip (split ";" (rstrip_by isspace x)) = map strip (split ";" x).
Proof.
  destruct (split_rstrip isspace ";" x eq_refl) as (init & last & -> & ->).
  rewrite !map_app. cbn [map]. now rewrite strip_rstrip.
Qed.

(** The segments of the trimmed line are the segments of the line. *)
Lemma spec_segments_strip x : spec_segments (strip x) = spec_segments x.
Proof.
  unfold spec_segments. unfold strip at 2, strip_by.
  now rewrite segments_rstrip, segments_lstrip.
Qed.

Lemma spec_segments_join a b :
  spec_segments (a ++ ";" ++ b) = (spec_segments a ++ spec_segments b)%list.
Proof.
  unfold spec_segments.
  change (a ++ ";" ++ b) with (a ++ String ";" b).
  now rewrite split_app, map_app, filter_app.
Qed.

Lemma lstrip_by_app p a s :
  lstrip_by p (a ++ s)
  = if is_empty (lstrip_by p a) then lstrip_by p s else lstrip_by p a ++ s.
Proof.
  induction a as [|c r IH]; cbn.
  - now destruct (lstrip_by p s).
  - destruct (p c); [exact IH | reflexivity].
Qed.

Lemma rstrip_by_kept p u c v :
  p c = false -> is_empty (rstrip_by p (u ++ String c v)) = false.
Proof.
  intros Hc. induction u as [|x r IH]; cbn.
  - now rewrite Hc, andb_false_r.
  - now rewrite IH.
Qed.

Lemma classify_head_semicolon t : classify (String ";" t) = SegmentsLine.
Proof. now destruct t. Qed.

Lemma classify_second_semicolon c t :
  classify (String c (String ";" t)) = SegmentsLine.
Proof.
  unfold classify. cbn.
  now rewrite !andb_false_r.
Qed.

Lemma classify_second_space c x t :
  isspace x = true -> classify (String c (String x t)) = SegmentsLine.
Proof.
  intros Hx. destruct (space_not_marker x Hx) as [H1 H2].
  unfold classify. cbn. now rewrite H1, H2, !andb_false_r.
Qed.

Lemma classify_first_two c x t t' :
  classify (String c (String x t)) = classify (String c (String x t')).
Proof. reflexivity. Qed.

(** A move line followed by ";" and anything is still a move line. *)
Lemma classify_join a b :
  classify (strip a) = SegmentsLine ->
  classify (strip (a ++ ";" ++ b)) = SegmentsLine.
Proof.
  unfold strip, strip_by. rewrite lstrip_by_app.
  pose proof (lstrip_by_head isspace a) as Hh.
  destruct (lstrip_by isspace a) as [|c0 r0]; cbn [is_empty].
  - intros _. cbn [append lstrip_by].
    change (isspace ";") with false. cbv iota.
    rewrite (rstrip_by_head isspace ";" b eq_refl).
    apply classify_head_semicolon.
  - cbn [append]. rewrite !(rstrip_by_head isspace c0 _ Hh).
    destruct r0 as [|c1 r1].
    + intros _. cbn [append].
      rewrite (rstrip_by_head isspace ";" b eq_refl).
      apply classify_second_semicolon.
    + cbn [append rstrip_by].
      rewrite (rstrip_by_kept isspace r1 ";" b eq_refl). cbn [andb].
      destruct (is_empty (rstrip_by isspace r1) && isspace c1) eqn:Hcond.
      * intros _. apply andb_true_iff in Hcond as [_ Hsp].
        now apply classify_second_space.
      * intros H. now rewrite <- H.
Qed.

(** A segment is handled as its trimmed text is, and a blank one is
    passed over. *)
Lemma process_segment_strip segment s :
  process_segment (strip segment) s = process_segment segment s.
Proof. unfold process_segment, strip. now rewrite strip_by_idem. Qed.

Lemma process_segment_blank segment s :
  is_empty (strip segment) = true -> process_segment segment s = Ok tt s.
Proof. intros H. unfold process_segment. now rewrite H. Qed.

(** The loop over the raw segments is the loop over the trimmed,
    non-empty ones, in every state. *)
Lemma for_each_spec_segments segments : forall s,
  for_each segments process_segment s
  = for_each (filter (fun segment => negb (is_empty segment)) (map strip segments))
             process_segment s.
Proof.
  induction segments as [|segment rest IH]; intros s; [reflexivity|].
  cbn [map filter].
  destruct (is_empty (strip segment)) eqn:E; cbn [negb for_each]; unfold bind.
  - rewrite (process_segment_blank segment s E). apply IH.
  - rewrite process_segment_strip.
    destruct (process_segment segment s) as [[] s1|e s1]; [apply IH | reflexivity].
Qed.

Lemma segments_line_run line s :
  classify (strip line) = SegmentsLine ->
  process_command line s = for_each (spec_segments line) process_segment s.
Proof.
  intros Hk. rewrite process_command_dispatch, Hk.
  unfold segments_branch. rewrite for_each_spec_segments.
  fold (spec_segments (strip line)). now rewrite spec_segments_strip.
Qed.

(** X20.  Two move lines joined by ";" do what the first does and then
    what the second does. *)
Theorem process_command_join a b s :
  classify (strip a) = SegmentsLine ->
  classify (strip b) = SegmentsLine ->
  process_command (a ++ ";" ++ b) s
  = (process_command a ;;; process_command b) s.
Proof.
  intros Ha Hb.
  rewrite (segments_line_run _ s (classify_join a b Ha)).
  rewrite spec_segments_join, for_each_app. unfold bind.
  rewrite (segments_line_run a s Ha).
  destruct (for_each (spec_segments a) process_segment s) as [[] s1|e s1];
    [|reflexivity].
  now rewrite (segments_line_run b s1 Hb).
Qed.

Lemma process_command_join_witness :
  classify (strip " 0,1500 ") = SegmentsLine /\
  classify (strip " 1,bad") = SegmentsLine /\
  process_command " 0,1500 ; 1,bad" (initial_state [])
  = (process_command " 0,1500 " ;;; process_command " 1,bad") (initial_state []).
Proof.
  split; [reflexivity | split; [reflexivity|]].
  exact (process_command_join " 0,1500 " " 1,bad" (initial_state []) eq_refl eq_refl).
Defined.

End JoinedLines.
